(** * Notification service: socket registry, dispatcher, broker consumer
      and webhook routes, embedded from the JavaScript sources.

    - [src/services/socketService.js]  : [SocketService]
    - [src/services/unifiedAuthService.js] : [verifyToken]
    - [src/services/eventConsumer.js]  : broker consumption
    - [src/routes/notifications.js]    : webhook ingestion
    - [src/middleware/serviceAuth.js], [src/utils/validator.js] :
                                         the middleware of the routes
    - [src/config/rabbitmq.js]         : broker connection handling *)

From stdpp Require Import gmap strings list fin_maps.

Set Warnings "-register-all".
Open Scope string_scope.

(** ** JavaScript values *)

(** The values that travel through the service: what [JSON.parse] and the
    validated request bodies contain, plus [undefined] for absent
    properties. A number is given by the text JavaScript prints for it
    ([42], [-1.5], [1e+21]; both zeros print [0]), which is all the service
    does with one. *)
Inductive Json : Type :=
| JUndefined
| JNull
| JBool (b : bool)
| JNum (text : string)
| JStr (s : string)
| JArr (items : list Json)
| JObj (fields : list (string * Json)).

(** An object literal: its own properties in insertion order. *)
Abbreviation Obj := (list (string * Json)).

(** JavaScript truthiness, as used by [||], [!] and [if]. *)
Definition truthy (v : Json) : bool :=
  match v with
  | JUndefined | JNull => false
  | JBool b => b
  | JNum text => negb (String.eqb text "0")
  | JStr s => negb (String.eqb s "")
  | JArr _ | JObj _ => true
  end.

(** [a || b] *)
Definition js_or (a b : Json) : Json := if truthy a then a else b.

(** [v === 'literal'] *)
Definition is_str (v : Json) (lit : string) : bool :=
  match v with
  | JStr s => String.eqb s lit
  | _ => false
  end.

(** The first binding of [k] in an object literal. *)
Fixpoint obj_lookup (k : string) (o : Obj) : option Json :=
  match o with
  | [] => None
  | (k', v) :: rest => if String.eqb k' k then Some v else obj_lookup k rest
  end.

(** [v.k] on a value that is neither [null] nor [undefined]; the properties
    read by the service ([eventType], [metadata], [assessmentName], ...)
    exist on objects only, so any other value yields [undefined]. *)
Definition prop (k : string) (v : Json) : Json :=
  match v with
  | JObj fields => default JUndefined (obj_lookup k fields)
  | _ => JUndefined
  end.

(** [v?.k] *)
Definition opt_prop (k : string) (v : Json) : Json :=
  match v with
  | JUndefined | JNull => JUndefined
  | _ => prop k v
  end.

(** Destructuring [const { ... } = v] throws a [TypeError] on [null] and
    [undefined] and succeeds on every other value. *)
Definition destructurable (v : Json) : bool :=
  match v with
  | JUndefined | JNull => false
  | _ => true
  end.

(** Writing property [k]: an existing key keeps its position, a new key is
    appended (the order in which [{...data, k: v}] enumerates). *)
Fixpoint obj_set (k : string) (v : Json) (o : Obj) : Obj :=
  match o with
  | [] => [(k, v)]
  | (k', v') :: rest =>
      if String.eqb k' k then (k', v) :: rest else (k', v') :: obj_set k v rest
  end.

(** ** Event-kind routing: the payloads of the two ingestion paths *)

Module Broker.

(** [handleAnalysisCompleted]: the object literal [webhookPayload]. *)
Definition completedPayload (eventData : Json) : Obj :=
  let resultId := prop "resultId" eventData in
  let metadata := prop "metadata" eventData in
  [ ("status", JStr "completed");
    ("result_id", resultId);
    ("assessment_name",
      js_or (opt_prop "assessmentName" metadata) (JStr "Unknown Assessment")) ].

(** [handleAnalysisFailed]: the delivery event name. *)
Definition failedEventName (eventData : Json) : string :=
  let metadata := prop "metadata" eventData in
  if is_str (opt_prop "errorType" metadata) "UNSUPPORTED_ASSESSMENT_TYPE"
  then "analysis-unknown" else "analysis-failed".

(** [handleAnalysisFailed]: the object literal [webhookPayload]. *)
Definition failedPayload (eventData : Json) : Obj :=
  let errorMessage := prop "errorMessage" eventData in
  let metadata := prop "metadata" eventData in
  [ ("status", JStr "failed");
    ("result_id", js_or (prop "resultId" eventData) JNull);
    ("assessment_name",
      js_or (opt_prop "assessmentName" metadata) (JStr "Unknown Assessment"));
    ("error_message", errorMessage) ].

(** [handleAnalysisStarted]: the object literal [webhookPayload]. *)
Definition startedPayload (eventData : Json) : Obj :=
  let jobId := prop "jobId" eventData in
  let resultId := prop "resultId" eventData in
  let metadata := prop "metadata" eventData in
  [ ("jobId", jobId);
    ("resultId", js_or resultId JNull);
    ("status", JStr "processing");
    ("assessment_name",
      js_or (opt_prop "assessmentName" metadata) (JStr "Unknown Assessment"));
    ("message", JStr "Your analysis has started processing...");
    ("estimated_time",
      js_or (opt_prop "estimatedProcessingTime" metadata) (JStr "1-3 minutes")) ].

End Broker.

Module Webhook.

(** [POST /analysis-started]: the object literal [webhookPayload]. *)
Definition startedPayload (body : Json) : Obj :=
  [ ("jobId", prop "jobId" body);
    ("status", prop "status" body);
    ("assessment_name", prop "assessment_name" body);
    ("message",
      js_or (prop "message" body) (JStr "Analysis processing started...")) ].

(** [POST /analysis-complete] *)
Definition completePayload (body : Json) : Obj :=
  let normalizedStatus := JStr "completed" in
  [ ("status", normalizedStatus);
    ("result_id", prop "result_id" body);
    ("assessment_name", prop "assessment_name" body) ].

(** [POST /analysis-failed] and [POST /analysis-unknown] build the same
    literal. *)
Definition failedPayload (body : Json) : Obj :=
  let normalizedStatus := JStr "failed" in
  [ ("status", normalizedStatus);
    ("result_id", js_or (prop "result_id" body) JNull);
    ("assessment_name", prop "assessment_name" body);
    ("error_message", prop "error_message" body) ].

Definition unknownPayload (body : Json) : Obj := failedPayload body.

End Webhook.

(** ** Results of code that may throw *)

(** A call returns a value or throws an error of some name. *)
Inductive Result (A : Type) : Type :=
| Ok (a : A)
| Throw (err : string).
Arguments Ok {A} a.
Arguments Throw {A} err.

(** Sequencing: an exception skips the rest. *)
Definition bind {A B} (r : Result A) (k : A -> Result B) : Result B :=
  match r with
  | Ok a => k a
  | Throw e => Throw e
  end.

Notation "'try!' x := r 'in' k" := (bind r (fun x => k))
  (at level 10, x name, r at level 100, k at level 200,
   format "'[v' 'try!'  x  :=  r  'in' '/' k ']'").

(** ** String conversion and key equality *)

(** [String(v)], as performed by the template literal [`user:${userId}`].
    A parsed object has no callable property of its own: with an own
    [toString] property neither that nor [valueOf] yields a primitive and
    the conversion throws a [TypeError]; without one,
    [Object.prototype.toString] answers. An array joins the conversions of
    its elements, [null] and [undefined] counting as empty. *)
Fixpoint js_to_string (v : Json) : Result string :=
  match v with
  | JUndefined => Ok "undefined"
  | JNull => Ok "null"
  | JBool true => Ok "true"
  | JBool false => Ok "false"
  | JNum text => Ok text
  | JStr s => Ok s
  | JArr items =>
      let elem (x : Json) : Result string :=
        match x with
        | JUndefined | JNull => Ok ""
        | _ => js_to_string x
        end in
      (fix join (l : list Json) : Result string :=
         match l with
         | [] => Ok ""
         | [x] => elem x
         | x :: rest =>
             try! first := elem x in
             try! others := join rest in
             Ok (first +:+ "," +:+ others)
         end) items
  | JObj fields =>
      match obj_lookup "toString" fields with
      | Some _ => Throw "TypeError"
      | None => Ok "[object Object]"
      end
  end.

(** Key equality of a JavaScript [Map] (SameValueZero): primitives by value;
    every object or array built from a message or a request body is a fresh
    reference, equal to no other key. *)
Definition same_key (a b : Json) : bool :=
  match a, b with
  | JUndefined, JUndefined | JNull, JNull => true
  | JBool x, JBool y => Bool.eqb x y
  | JNum x, JNum y => String.eqb x y
  | JStr x, JStr y => String.eqb x y
  | _, _ => false
  end.

(** ** The credential verifier ([unifiedAuthService]) *)

Module User.
(** The fields of the verified user that the socket service reads; the
    authentication services identify users by strings. *)
Record t : Type := mk { id : string; email : string; tokenType : string }.
End User.

(** What the [catch] clauses inspect of a caught error. *)
Record JsError : Type := mkError {
  err_name : string;
  err_response_status : option Z;   (* [error.response.status] *)
  err_request : bool                (* [error.request] is set: no answer *)
}.

(** How the guarded part of a verification routine ended: it reached its
    end with or without a user in the response, or an error was raised
    ([jwt.verify], the HTTP client, reading the response). *)
Inductive Attempt : Type :=
| Answered (user : option (string * string))   (* id and email *)
| Raised (e : JsError).

Inductive TokenType : Type := TokJwt | TokFirebase.

(** [String.prototype.includes] *)
Fixpoint includes (needle hay : string) : bool :=
  String.prefix needle hay ||
  match hay with
  | EmptyString => false
  | String _ rest => includes needle rest
  end.

(** [detectTokenType(token)]: [decoded] is what [jwt.decode(token, {complete:
    true})] does ([null] or an object with [header] and [payload], or an
    exception), [tokenLength] is [token.length]. Calling [includes] on an
    issuer that is neither a string nor an array throws, and the [catch]
    clause answers ['firebase']. *)
Definition detectTokenType (decoded : Result Json) (tokenLength : nat) : TokenType :=
  match decoded with
  | Throw _ => TokFirebase
  | Ok decoded =>
      if negb (truthy decoded) then TokFirebase
      else
        let by_length := if Nat.ltb 500 tokenLength then TokFirebase else TokJwt in
        if truthy (prop "header" decoded) && truthy (prop "payload" decoded) then
          let payload := prop "payload" decoded in
          let iss := prop "iss" payload in
          let by_claims :=
            if truthy (js_or (prop "id" payload) (prop "userId" payload))
            then TokJwt else by_length in
          if truthy iss then
            match iss with
            | JStr s =>
                if includes "securetoken.google.com" s then TokFirebase else by_claims
            | JArr items =>
                if existsb (fun x => is_str x "securetoken.google.com") items
                then TokFirebase else by_claims
            | _ => TokFirebase
            end
          else by_claims
        else by_length
  end.

Definition verifyJwtToken (a : Attempt) : Result (option User.t) :=
  match a with
  | Answered (Some (i, e)) => Ok (Some (User.mk i e "jwt"))
  | Answered None => Ok None
  | Raised error =>
      if String.eqb (err_name error) "JsonWebTokenError"
         || String.eqb (err_name error) "TokenExpiredError" then Ok None
      else if bool_decide (err_response_status error = Some 401%Z) then Ok None
      else if err_request error then Ok None
      else Throw (err_name error)
  end.

Definition verifyFirebaseToken (a : Attempt) : Result (option User.t) :=
  match a with
  | Answered (Some (i, e)) => Ok (Some (User.mk i e "firebase"))
  | Answered None => Ok None
  | Raised _ => Ok None
  end.

(** [verifyToken]: [tokenType] is the result of [detectTokenType]; [jwt] and
    [firebase] say how each backend behaves if it is asked. *)
Definition verifyToken (tokenType : TokenType) (jwt firebase : Attempt)
  : Result (option User.t) :=
  match tokenType with
  | TokFirebase =>
      try! user := verifyFirebaseToken firebase in
      match user with
      | Some u => Ok (Some u)
      | None => verifyJwtToken jwt
      end
  | TokJwt =>
      try! user := verifyJwtToken jwt in
      match user with
      | Some u => Ok (Some u)
      | None => verifyFirebaseToken firebase
      end
  end.

(** ** The socket service *)

(** A server-side socket object. [emitted] lists, oldest first, the packets
    the service handed to this socket ([socket.emit] and room broadcasts). *)
Record Socket : Type := mkSocket {
  userId : option string;      (* [socket.userId], [undefined] at first *)
  userEmail : option string;
  tokenType : option string;
  connected : bool;
  emitted : list (string * Obj)
}.

(** The [SocketService] instance with the Socket.IO server it drives and
    the pending callbacks of the event loop that belong to it. [sockets]
    holds every socket object created so far: a closed socket, out of
    [io.sockets.sockets], is still reachable from the timer and from an
    [authenticateSocket] call that awaits the verifier. *)
Record State : Type := mkState {
  initialized : bool;                        (* [this.io !== null] *)
  sockets : gmap string Socket;              (* socket objects, by [socket.id] *)
  rooms : gmap string (gset string);         (* [io.sockets.adapter.rooms] *)
  userConnections : gmap string (gset string);
  offlineNotificationCount : list (Json * nat);
  authTimers : gset string;                  (* armed authentication timers *)
  verifying : list string                    (* awaited [verifyToken] calls *)
}.

(** Updates of one field. *)
Definition with_sockets (f : gmap string Socket -> gmap string Socket) (st : State) : State :=
  mkState (initialized st) (f (sockets st)) (rooms st) (userConnections st)
          (offlineNotificationCount st) (authTimers st) (verifying st).

Definition with_rooms (f : gmap string (gset string) -> gmap string (gset string))
  (st : State) : State :=
  mkState (initialized st) (sockets st) (f (rooms st)) (userConnections st)
          (offlineNotificationCount st) (authTimers st) (verifying st).

Definition with_userConnections
  (f : gmap string (gset string) -> gmap string (gset string)) (st : State) : State :=
  mkState (initialized st) (sockets st) (rooms st) (f (userConnections st))
          (offlineNotificationCount st) (authTimers st) (verifying st).

Definition with_offline (f : list (Json * nat) -> list (Json * nat)) (st : State) : State :=
  mkState (initialized st) (sockets st) (rooms st) (userConnections st)
          (f (offlineNotificationCount st)) (authTimers st) (verifying st).

Definition with_authTimers (f : gset string -> gset string) (st : State) : State :=
  mkState (initialized st) (sockets st) (rooms st) (userConnections st)
          (offlineNotificationCount st) (f (authTimers st)) (verifying st).

Definition with_verifying (f : list string -> list string) (st : State) : State :=
  mkState (initialized st) (sockets st) (rooms st) (userConnections st)
          (offlineNotificationCount st) (authTimers st) (f (verifying st)).

(** The service as constructed, before [initialize(io)]. *)
Definition constructed : State :=
  mkState false ∅ ∅ ∅ [] ∅ [].

(** [initialize(io)] on a fresh server. *)
Definition initialize (st : State) : State :=
  mkState true (sockets st) (rooms st) (userConnections st)
          (offlineNotificationCount st) (authTimers st) (verifying st).

(** The service once [server.js] has called [socketService.initialize(io)]. *)
Definition booted : State := initialize constructed.

(** *** Socket.IO primitives used by the service *)

(** One more packet written to the socket. *)
Definition push (ev : string) (payload : Obj) (s : Socket) : Socket :=
  mkSocket (userId s) (userEmail s) (tokenType s) (connected s)
           (emitted s ++ [(ev, payload)]).

(** [socket.connected = false] *)
Definition close (s : Socket) : Socket :=
  mkSocket (userId s) (userEmail s) (tokenType s) false (emitted s).

(** [socket.userId = user.id], [socket.userEmail = user.email],
    [socket.tokenType = user.tokenType] *)
Definition identify (u : User.t) (s : Socket) : Socket :=
  mkSocket (Some (User.id u)) (Some (User.email u)) (Some (User.tokenType u))
           (connected s) (emitted s).

(** [socket.emit(ev, payload)] *)
Definition socket_emit (sid ev : string) (payload : Obj) (st : State) : State :=
  with_sockets (alter (push ev payload) sid) st.

(** [socket.join(room)]: the adapter adds the id to the room, creating it.
    Once the socket has closed, [join] does nothing. *)
Definition socket_join (sid room : string) (st : State) : State :=
  match sockets st !! sid with
  | Some socket =>
      if connected socket
      then with_rooms (fun r => <[room := {[sid]} ∪ default ∅ (r !! room)]> r) st
      else st
  | None => st
  end.

(** Leaving every room on close; a room that becomes empty is deleted. *)
Definition adapter_delAll (sid : string) (r : gmap string (gset string))
  : gmap string (gset string) :=
  omap (fun members : gset string =>
          let members' := members ∖ {[sid]} in
          if decide (members' = ∅) then None else Some members') r.

(** [io.to(room).emit(ev, payload)]: the adapter writes to every member of
    the room that is a connected socket of the namespace. *)
Definition room_emit (room ev : string) (payload : Obj) (st : State) : State :=
  let members : gset string := default ∅ (rooms st !! room) in
  with_sockets
    (map_imap (fun sid s =>
       Some (if bool_decide (sid ∈ members) && connected s
             then push ev payload s else s))) st.

(** The event names Socket.IO keeps for itself: [emit] throws an [Error]
    for them. *)
Definition reserved_event (ev : string) : bool :=
  existsb (String.eqb ev)
    [ "connect"; "connect_error"; "disconnect"; "disconnecting";
      "newListener"; "removeListener" ].

(** [io.sockets.sockets]: the connected sockets of the namespace. *)
Definition io_sockets (st : State) : gmap string Socket :=
  filter (fun kv => connected kv.2 = true) (sockets st).

(** [if (socket.userId)] *)
Definition has_userId (s : Socket) : option string :=
  match userId s with
  | Some u => if String.eqb u "" then None else Some u
  | None => None
  end.

(** *** Methods of [SocketService] *)

(** [handleDisconnect(socket, reason)]; the socket is named by its id. *)
Definition handleDisconnect (sid : string) (st : State) : State :=
  match sockets st !! sid with
  | None => st
  | Some socket =>
      match has_userId socket with
      | Some u =>
          match userConnections st !! u with
          | Some userSockets =>
              let userSockets' := userSockets ∖ {[sid]} in
              if decide (size userSockets' = 0)
              then with_userConnections (delete u) st
              else with_userConnections (<[u := userSockets']>) st
          | None => st
          end
      | None => st
      end
  end.

(** The close of a socket, whoever caused it ([socket.disconnect()], the
    peer, the transport): Socket.IO takes the socket out of its rooms and
    of the namespace, marks it disconnected and then fires ['disconnect'],
    whose listener is [handleDisconnect]. A closed socket is left alone. *)
Definition socket_disconnect (sid : string) (st : State) : State :=
  match sockets st !! sid with
  | Some socket =>
      if connected socket then
        handleDisconnect sid
          (with_sockets (<[sid := close socket]>)
             (with_rooms (adapter_delAll sid) st))
      else st
  | None => st
  end.

(** The ['connection'] listener of [setupSocketHandlers] for a new socket:
    Socket.IO has put it in the room of its own id; the listener arms the
    10 s authentication timer. *)
Definition on_connection (sid : string) (st : State) : State :=
  with_authTimers (union {[sid]})
    (socket_join sid sid
       (with_sockets (<[sid := mkSocket None None None true []]>) st)).

(** The callback given to [setTimeout(..., 10000)]. *)
Definition authTimeout (sid : string) (st : State) : State :=
  match sockets st !! sid with
  | Some socket =>
      match has_userId socket with
      | None =>
          socket_disconnect sid
            (socket_emit sid "auth_error"
               [("message", JStr "Authentication timeout")] st)
      | Some _ => st
      end
  | None => st
  end.

(** [authenticateSocket] after [await unifiedAuthService.verifyToken(token)]
    has settled with [verified]. *)
Definition authenticateSocket_resume (sid : string)
  (verified : Result (option User.t)) (st : State) : State :=
  match verified with
  | Ok None =>
      socket_disconnect sid
        (socket_emit sid "auth_error"
           [("message", JStr "Invalid or expired token")] st)
  | Ok (Some user) =>
      let st1 := with_sockets (alter (identify user) sid) st in
      let st2 :=
        with_userConnections
          (fun m => <[User.id user :=
                        {[sid]} ∪ default ∅ (m !! User.id user)]> m) st1 in
      let st3 := socket_join sid ("user:" +:+ User.id user) st2 in
      socket_emit sid "authenticated"
        [ ("success", JBool true);
          ("userId", JStr (User.id user));
          ("email", JStr (User.email user));
          ("tokenType", JStr (User.tokenType user)) ] st3
  | Throw _ =>
      socket_disconnect sid
        (socket_emit sid "auth_error"
           [("message", JStr "Authentication failed")] st)
  end.

(** [authenticateSocket] up to the [await]: [true] when the verifier is
    called and the function is suspended. *)
Definition authenticateSocket_begin (sid : string) (token : Json) (st : State)
  : bool * State :=
  if negb (truthy token)
  then (false, socket_emit sid "auth_error" [("message", JStr "Token required")] st)
  else (true, st).

(** [authenticateSocket(socket, token)] run to its end, nothing else
    happening while the verifier is awaited. *)
Definition authenticateSocket (sid : string) (token : Json)
  (verified : Result (option User.t)) (st : State) : State :=
  match authenticateSocket_begin sid token st with
  | (true, st') => authenticateSocket_resume sid verified st'
  | (false, st') => st'
  end.

(** The offline counters, a [Map] keyed by the [userId] argument. *)
Fixpoint offline_get (k : Json) (m : list (Json * nat)) : option nat :=
  match m with
  | [] => None
  | (k', n) :: rest => if same_key k' k then Some n else offline_get k rest
  end.

Fixpoint offline_set (k : Json) (n : nat) (m : list (Json * nat)) : list (Json * nat) :=
  match m with
  | [] => [(k, n)]
  | (k', n') :: rest =>
      if same_key k' k then (k', n) :: rest else (k', n') :: offline_set k n rest
  end.

Fixpoint offline_delete (k : Json) (m : list (Json * nat)) : list (Json * nat) :=
  match m with
  | [] => []
  | (k', n') :: rest =>
      if same_key k' k then rest else (k', n') :: offline_delete k rest
  end.

(** The room of a user, [`user:${userId}`]. *)
Definition user_room (userId : Json) : Result string :=
  try! name := js_to_string userId in
  Ok ("user:" +:+ name).

(** [sendToUser(userId, event, data)]; [now] is [new Date().toISOString()].
    Building the room name throws for a [userId] that has no string
    conversion; reading [this.io.sockets] throws while [io] is [null];
    [emit] throws for a reserved event name. *)
Definition sendToUser (userId : Json) (event : string) (data : Obj) (now : string)
  (st : State) : Result (bool * State) :=
  try! room := user_room userId in
  if initialized st then
    let socketCount :=
      match rooms st !! room with
      | Some members => size members
      | None => 0
      end in
    if Nat.ltb 0 socketCount then
      if reserved_event event then Throw "Error" else
      let st1 := room_emit room event (obj_set "timestamp" (JStr now) data) st in
      let st2 :=
        match offline_get userId (offlineNotificationCount st1) with
        | Some _ => with_offline (offline_delete userId) st1
        | None => st1
        end in
      Ok (true, st2)
    else
      let currentCount := default 0 (offline_get userId (offlineNotificationCount st)) + 1 in
      Ok (false, with_offline (offline_set userId currentCount) st)
  else Throw "TypeError".

Record ConnectionCount : Type := mkCount {
  total : nat;
  authenticated : nat;
  users : nat
}.

(** [getConnectionCount()] *)
Definition getConnectionCount (st : State) : Result ConnectionCount :=
  if initialized st then
    Ok {| total := size (io_sockets st);
          authenticated := size (userConnections st);
          users := length ((map_to_list (userConnections st)).*1) |}
  else Throw "TypeError".

(** [disconnectUser(userId)] *)
Definition disconnectUser (userId : string) (st : State) : bool * State :=
  match userConnections st !! userId with
  | Some userSockets =>
      (true,
       foldl (fun acc socketId =>
                match io_sockets acc !! socketId with
                | Some _ => socket_disconnect socketId acc
                | None => acc
                end) st (elements userSockets))
  | None => (false, st)
  end.

(** An entry of [getConnectionDetails()], without the handshake data. *)
Record ConnectionDetail : Type := mkDetail {
  detail_userId : string;
  detail_socketId : string;
  detail_userEmail : option string;
  detail_connected : bool
}.

(** [getConnectionDetails()]: the registered socket ids that name a socket
    of the namespace, user by user. *)
Definition getConnectionDetails (st : State) : Result (list ConnectionDetail) :=
  if initialized st then
    Ok (userSockets ← map_to_list (userConnections st);
        socketId ← elements userSockets.2;
        match io_sockets st !! socketId with
        | Some socket =>
            [mkDetail userSockets.1 socketId (userEmail socket) (connected socket)]
        | None => []
        end)
  else Throw "TypeError".

(** *** The event loop *)

(** What can happen to the service, one callback at a time. *)
Inductive Event : Type :=
| EConnect (sid : string)
| EAuthenticate (sid : string) (token : Json)
| EVerified (sid : string) (verified : Result (option User.t))
| EClose (sid : string)
| EAuthTimer (sid : string)
| ESend (userId : Json) (event : string) (data : Obj) (now : string)
| EDisconnectUser (userId : string).

(** One pending call less for a socket. *)
Fixpoint remove_first (x : string) (l : list string) : list string :=
  match l with
  | [] => []
  | y :: rest => if String.eqb y x then rest else y :: remove_first x rest
  end.

(** [socket.connected], [false] for an id that names no socket. *)
Definition is_connected (sid : string) (st : State) : bool :=
  match sockets st !! sid with
  | Some s => connected s
  | None => false
  end.

(** One callback. An event that cannot occur in the state (a second socket
    with a used id, a message from a closed socket, a timer or a verifier
    answer that is not pending) leaves it unchanged. *)
Definition step (st : State) (e : Event) : State :=
  match e with
  | EConnect sid =>
      match sockets st !! sid with
      | None => if initialized st then on_connection sid st else st
      | Some _ => st
      end
  | EAuthenticate sid token =>
      if is_connected sid st then
        match authenticateSocket_begin sid token st with
        | (true, st') => with_verifying (cons sid) st'
        | (false, st') => st'
        end
      else st
  | EVerified sid verified =>
      if bool_decide (sid ∈ verifying st) then
        authenticateSocket_resume sid verified
          (with_verifying (remove_first sid) st)
      else st
  | EClose sid => socket_disconnect sid st
  | EAuthTimer sid =>
      if bool_decide (sid ∈ authTimers st) then
        authTimeout sid (with_authTimers (fun t => t ∖ {[sid]}) st)
      else st
  | ESend userId event data now =>
      match sendToUser userId event data now st with
      | Ok (_, st') => st'
      | Throw _ => st
      end
  | EDisconnectUser userId => (disconnectUser userId st).2
  end.

Definition run (st : State) (events : list Event) : State := foldl step st events.

(** The states the service can be in. *)
Definition reachable (st : State) : Prop :=
  exists events, st = run booted events.

(** ** Webhook ingestion ([routes/notifications.js]) *)

Module Routes.

(** The reply of a notification route: [200] with the [sent] flag of the
    response body, or [500] from the [catch] clause. *)
Inductive Response : Type :=
| NotificationSent (sent : bool)
| InternalError.

(** The common shape of the four handlers, after [serviceAuth] and
    [validateNotification] let the request through: destructure the body,
    build the payload, call [sendToUser]. *)
Definition notify (event : string) (payload : Json -> Obj) (body : Json)
  (now : string) (st : State) : Response * State :=
  if destructurable body then
    match sendToUser (prop "userId" body) event (payload body) now st with
    | Ok (sent, st') => (NotificationSent sent, st')
    | Throw _ => (InternalError, st)
    end
  else (InternalError, st).

Definition analysis_started := notify "analysis-started" Webhook.startedPayload.
Definition analysis_complete := notify "analysis-complete" Webhook.completePayload.
Definition analysis_failed := notify "analysis-failed" Webhook.failedPayload.
Definition analysis_unknown := notify "analysis-unknown" Webhook.unknownPayload.

End Routes.

(** ** Internal requests: [serviceAuth], [validateNotification], the router *)

Module Http.

(** What the middleware reads of a request. [path] is the path as the client
    spelt it, below the mount point of the router. *)
Record Request : Type := mkRequest {
  path : string;
  headers : gmap string string;
  body : Json
}.

Inductive Reply : Type :=
| Unauthorized (message : string)         (* 401 *)
| ValidationFailed                        (* 400 *)
| Routed (r : Routes.Response).           (* the handler answered *)

(** The client said who it is with the configured key: both headers are
    present and not empty and [x-service-key] is the configured key. *)
Definition authorized (INTERNAL_SERVICE_KEY : option string) (headers : gmap string string)
  : Prop :=
  exists key,
    INTERNAL_SERVICE_KEY = Some key /\ key <> "" /\
    headers !! "x-service-key" = Some key /\
    (exists service, headers !! "x-internal-service" = Some service /\ service <> "").

(** A header value that is present and not the empty string. *)
Definition present (v : option string) : bool :=
  match v with
  | Some s => negb (String.eqb s "")
  | None => false
  end.

(** [serviceAuth]: the message of its 401 answer, [None] when it calls
    [next()]. [INTERNAL_SERVICE_KEY] is the environment variable, possibly
    unset. *)
Definition serviceAuth (INTERNAL_SERVICE_KEY : option string) (req : Request)
  : option string :=
  let serviceKey := headers req !! "x-service-key" in
  let internalService := headers req !! "x-internal-service" in
  if negb (present serviceKey) || negb (present internalService)
  then Some "Internal service authentication required"
  else if negb (bool_decide (serviceKey = INTERNAL_SERVICE_KEY))
  then Some "Invalid service key"
  else None.

(** The rules the schemas put on a key: [Joi.string()] with [uuid()], with
    [valid(...)], or alone. *)
Inductive StringRule : Type :=
| Uuid
| Valid (values : list string)
| AnyString.

(** A key of a schema: its rule and whether it is [required()]. *)
Abbreviation Schema := (list (string * (StringRule * bool))).

Definition analysisStartedSchema : Schema :=
  [ ("userId", (Uuid, true));
    ("jobId", (Uuid, true));
    ("status", (Valid ["processing"; "started"], true));
    ("assessment_name", (AnyString, true));
    ("message", (AnyString, false)) ].

Definition analysisCompleteSchema : Schema :=
  [ ("userId", (Uuid, true));
    ("jobId", (Uuid, true));
    ("result_id", (Uuid, true));
    ("status", (Valid ["berhasil"; "completed"; "success"], true));
    ("assessment_name", (AnyString, true));
    ("message", (AnyString, false)) ].

Definition analysisFailedSchema : Schema :=
  [ ("userId", (Uuid, true));
    ("jobId", (Uuid, true));
    ("status", (Valid ["gagal"; "failed"; "error"], true));
    ("assessment_name", (AnyString, true));
    ("error_message", (AnyString, true));
    ("message", (AnyString, false)) ].

Definition analysisUnknownSchema : Schema :=
  [ ("userId", (Uuid, true));
    ("jobId", (Uuid, true));
    ("status", (Valid ["gagal"; "failed"; "error"; "unknown"], true));
    ("assessment_name", (AnyString, true));
    ("error_message", (AnyString, true));
    ("message", (AnyString, false)) ].

Section Validation.

(** Joi's test of [uuid()]. *)
Variable is_uuid : string -> bool.

Definition rule_ok (r : StringRule) (s : string) : bool :=
  match r with
  | Uuid => is_uuid s
  | Valid values => existsb (String.eqb s) values
  | AnyString => true
  end.

(** A key against its value: a key that is absent passes unless required;
    a value passes when it is a string, not empty, that meets the rule. *)
Definition key_ok (k : StringRule * bool) (v : option Json) : bool :=
  match v with
  | None | Some JUndefined => negb k.2
  | Some (JStr s) => negb (String.eqb s "") && rule_ok k.1 s
  | Some _ => false
  end.

(** [schema.validate(body)] has no error, under Joi's defaults: the value
    is an object (or [undefined]), it has no key the schema does not know,
    and every key of the schema passes. *)
Definition validate (schema : Schema) (body : Json) : bool :=
  match body with
  | JUndefined => true
  | JObj fields =>
      forallb (fun kv : string * Json =>
                 existsb (fun sk : string * (StringRule * bool) =>
                            String.eqb sk.1 kv.1) schema) fields &&
      forallb (fun sk : string * (StringRule * bool) =>
                 key_ok sk.2 (obj_lookup sk.1 fields)) schema
  | _ => false
  end.

(** [validateNotification]: the schema is chosen by [req.path]; [None] when
    it answers 400, the request it hands to [next()] otherwise. *)
Definition validateNotification (req : Request) : option Request :=
  let checked (schema : Schema) :=
    if validate schema (body req) then Some req else None in
  if String.eqb (path req) "/analysis-started" then checked analysisStartedSchema
  else if String.eqb (path req) "/analysis-complete" then checked analysisCompleteSchema
  else if String.eqb (path req) "/analysis-failed" then checked analysisFailedSchema
  else if String.eqb (path req) "/analysis-unknown" then checked analysisUnknownSchema
  else Some req.

Variable INTERNAL_SERVICE_KEY : option string.

(** [router.post(name, serviceAuth, validateNotification, handler)] for a
    request that Express matched with the route. *)
Definition post (handler : Json -> string -> State -> Routes.Response * State)
  (req : Request) (now : string) (st : State) : Reply * State :=
  match serviceAuth INTERNAL_SERVICE_KEY req with
  | Some message => (Unauthorized message, st)
  | None =>
      match validateNotification req with
      | None => (ValidationFailed, st)
      | Some req' =>
          let r := handler (body req') now st in (Routed r.1, r.2)
      end
  end.

Definition post_analysis_started := post Routes.analysis_started.
Definition post_analysis_complete := post Routes.analysis_complete.
Definition post_analysis_failed := post Routes.analysis_failed.
Definition post_analysis_unknown := post Routes.analysis_unknown.

(** [router.get('/status', serviceAuth, ...)]: the connection statistics,
    or 500 from the [catch] clause. *)
Inductive StatusReply : Type :=
| StatusUnauthorized (message : string)
| StatusOk (connections : ConnectionCount)
| StatusError.

Definition get_status (req : Request) (st : State) : StatusReply :=
  match serviceAuth INTERNAL_SERVICE_KEY req with
  | Some message => StatusUnauthorized message
  | None =>
      match getConnectionCount st with
      | Ok connections => StatusOk connections
      | Throw _ => StatusError
      end
  end.

End Validation.

End Http.

(** ** The broker connection ([config/rabbitmq.js]) *)

Module Rabbitmq.

Record Config : Type := mkConfig {
  eventsExchange : string;
  notificationsQueue : string
}.

(** The module state: its [connection] and [channel] variables (handles
    are numbered) and the [setTimeout(reconnect, 5000)] calls not yet
    run. *)
Record t : Type := mk {
  config : Config;
  connection : option nat;
  channel : option nat;
  reconnectTimers : nat
}.

(** How far [initialize] gets with the broker. *)
Inductive Setup : Type :=
| ConnectFailed
| ChannelFailed (conn : nat)
| DeclareFailed (conn ch : nat)
| Ready (conn ch : nat).

Definition initialize (o : Setup) (r : t) : Result nat * t :=
  match o with
  | ConnectFailed => (Throw "Error", r)
  | ChannelFailed conn =>
      (Throw "Error", mk (config r) (Some conn) (channel r) (reconnectTimers r))
  | DeclareFailed conn ch =>
      (Throw "Error", mk (config r) (Some conn) (Some ch) (reconnectTimers r))
  | Ready conn ch =>
      (Ok ch, mk (config r) (Some conn) (Some ch) (reconnectTimers r))
  end.

(** The ['close'] and ['error'] listeners of a connection. *)
Definition on_connection_lost (r : t) : t :=
  mk (config r) (connection r) (channel r) (S (reconnectTimers r)).

(** [reconnect], run by one of the timers. [closes] tells whether
    [connection.close()] resolves, the previous connection being still
    open: its ['close'] listener then runs; otherwise the call throws and
    the error is logged. A failed [initialize] arms the timer again. *)
Definition reconnect (closes : bool) (o : Setup) (r : t) : t :=
  match reconnectTimers r with
  | 0 => r
  | S n =>
      let r0 := mk (config r) (connection r) (channel r) n in
      let r1 :=
        match connection r0 with
        | Some _ => if closes then on_connection_lost r0 else r0
        | None => r0
        end in
      match initialize o r1 with
      | (Ok _, r') => r'
      | (Throw _, r') =>
          mk (config r') (connection r') (channel r') (S (reconnectTimers r'))
      end
  end.

End Rabbitmq.

(** ** The broker consumption loop ([services/eventConsumer.js]) *)

Module EventConsumer.

Record Message : Type := mkMessage {
  content : string;
  deliveryTag : nat
}.

(** What the consumer tells the broker about a delivery. *)
Inductive Settlement : Type :=
| Ack (tag : nat)
| Nack (tag : nat) (allUpTo requeue : bool).

(** The module variables [isConsuming] and [channel], the two modules the
    consumer requires, and the settlements sent so far, oldest first. *)
Record World : Type := mkWorld {
  service : State;
  broker : Rabbitmq.t;
  isConsuming : bool;
  channel : option nat;
  settled : list Settlement
}.

(** [initialize]: [channel = await rabbitmq.initialize()]. *)
Definition initialize (o : Rabbitmq.Setup) (w : World) : Result unit * World :=
  match Rabbitmq.initialize o (broker w) with
  | (Ok ch, b) => (Ok tt, mkWorld (service w) b (isConsuming w) (Some ch) (settled w))
  | (Throw e, b) => (Throw e, mkWorld (service w) b (isConsuming w) (channel w) (settled w))
  end.

(** [startConsuming]; [subscribed] tells whether [channel.consume]
    resolves. *)
Definition startConsuming (subscribed : bool) (w : World) : Result unit * World :=
  if isConsuming w then (Ok tt, w)
  else match channel w with
       | None => (Throw "Event consumer not initialized", w)
       | Some _ =>
           if subscribed
           then (Ok tt, mkWorld (service w) (broker w) true (channel w) (settled w))
           else (Throw "Error", w)
       end.

(** [stopConsuming]; [cancelled] tells whether [channel.cancel] resolves. *)
Definition stopConsuming (cancelled : bool) (w : World) : Result unit * World :=
  match channel w with
  | Some _ =>
      if isConsuming w then
        if cancelled
        then (Ok tt, mkWorld (service w) (broker w) false (channel w) (settled w))
        else (Throw "Error", w)
      else (Ok tt, w)
  | None => (Ok tt, w)
  end.

(** [getStatus()], the object it returns. *)
Definition getStatus (w : World) : Obj :=
  [ ("isConsuming", JBool (isConsuming w));
    ("isConnected", JBool (bool_decide (channel w <> None)));
    ("queue", JStr (Rabbitmq.notificationsQueue (Rabbitmq.config (broker w))));
    ("exchange", JStr (Rabbitmq.eventsExchange (Rabbitmq.config (broker w)))) ].

(** The three handlers: destructure, build the payload, [sendToUser];
    their [catch] clauses log and throw the error again. *)
Definition handleAnalysisCompleted (eventData : Json) (now : string) (st : State)
  : Result State :=
  if destructurable eventData then
    try! r := sendToUser (prop "userId" eventData) "analysis-complete"
                (Broker.completedPayload eventData) now st in
    Ok r.2
  else Throw "TypeError".

Definition handleAnalysisFailed (eventData : Json) (now : string) (st : State)
  : Result State :=
  if destructurable eventData then
    try! r := sendToUser (prop "userId" eventData) (Broker.failedEventName eventData)
                (Broker.failedPayload eventData) now st in
    Ok r.2
  else Throw "TypeError".

Definition handleAnalysisStarted (eventData : Json) (now : string) (st : State)
  : Result State :=
  if destructurable eventData then
    try! r := sendToUser (prop "userId" eventData) "analysis-started"
                (Broker.startedPayload eventData) now st in
    Ok r.2
  else Throw "TypeError".

(** [processEvent]: the [switch] on [eventType]. *)
Definition processEvent (eventData : Json) (now : string) (st : State)
  : Result State :=
  if destructurable eventData then
    let eventType := prop "eventType" eventData in
    if is_str eventType "analysis.completed" then
      handleAnalysisCompleted eventData now st
    else if is_str eventType "analysis.failed" then
      handleAnalysisFailed eventData now st
    else if is_str eventType "analysis.started" then
      handleAnalysisStarted eventData now st
    else Ok st
  else Throw "TypeError".

Section Consume.

(** [JSON.parse]: [None] when it throws a [SyntaxError]. *)
Variable JSON_parse : string -> option Json.

(** The body of the [try] block of the consumer callback, up to the
    acknowledgement. *)
Definition handle (m : Message) (now : string) (st : State) : Result State :=
  match JSON_parse (content m) with
  | None => Throw "SyntaxError"
  | Some eventData => processEvent eventData now st
  end.

(** The callback given to [channel.consume]. *)
Definition onMessage (message : option Message) (now : string) (w : World) : World :=
  match message with
  | None => w
  | Some m =>
      match handle m now (service w) with
      | Ok st' =>
          mkWorld st' (broker w) (isConsuming w) (channel w)
                  (settled w ++ [Ack (deliveryTag m)])
      | Throw _ =>
          mkWorld (service w) (broker w) (isConsuming w) (channel w)
                  (settled w ++ [Nack (deliveryTag m) false false])
      end
  end.

End Consume.

(** What happens around the consumer between two deliveries. *)
Inductive Event : Type :=
| EInitialize (o : Rabbitmq.Setup)
| EStart (subscribed : bool)
| EStop (cancelled : bool)
| EConnectionLost
| EReconnect (closes : bool) (o : Rabbitmq.Setup).

Definition set_broker (b : Rabbitmq.t) (w : World) : World :=
  mkWorld (service w) b (isConsuming w) (channel w) (settled w).

Definition step (w : World) (e : Event) : World :=
  match e with
  | EInitialize o => (initialize o w).2
  | EStart subscribed => (startConsuming subscribed w).2
  | EStop cancelled => (stopConsuming cancelled w).2
  | EConnectionLost => set_broker (Rabbitmq.on_connection_lost (broker w)) w
  | EReconnect closes o => set_broker (Rabbitmq.reconnect closes o (broker w)) w
  end.

Definition run (w : World) (events : list Event) : World := foldl step w events.

(** The process at start-up, with the default names of the configuration. *)
Definition boot : World :=
  mkWorld booted
          (Rabbitmq.mk (Rabbitmq.mkConfig "atma_events_exchange"
                                          "analysis_events_notifications")
                       None None 0)
          false None [].

End EventConsumer.

(** ** Specification-level notions *)

(** A broker event and a webhook body carry equivalent input fields: the
    same user, job, result id, assessment name and error message, each
    under the name its path uses. *)
Definition same_inputs (eventData body : Json) : Prop :=
  prop "userId" eventData = prop "userId" body /\
  prop "jobId" eventData = prop "jobId" body /\
  prop "resultId" eventData = prop "result_id" body /\
  opt_prop "assessmentName" (prop "metadata" eventData) = prop "assessment_name" body /\
  prop "errorMessage" eventData = prop "error_message" body.

(** The packet that tells a client its socket is authenticated as [user]. *)
Definition confirmation (user : User.t) : string * Obj :=
  ("authenticated",
   [ ("success", JBool true);
     ("userId", JStr (User.id user));
     ("email", JStr (User.email user));
     ("tokenType", JStr (User.tokenType user)) ]).

(** The socket was told that it is authenticated as the user of id [u]. *)
Definition authenticated_as (u : string) (s : Socket) : Prop :=
  exists user, User.id user = u /\ confirmation user ∈ emitted s.

(** The live authenticated connections of the user of id [u]: the sockets
    that are connected and were authenticated as that user. *)
Definition live (u : string) (st : State) (sid : string) : Prop :=
  exists s, sockets st !! sid = Some s /\ connected s = true /\ authenticated_as u s.

(** Socket ids are the ones Socket.IO generates (twenty characters of the
    URL-safe base64 alphabet): none is the name of a user's room. *)
Definition socket_ids_plain (st : State) : Prop :=
  forall sid u, is_Some (sockets st !! sid) -> sid <> "user:" +:+ u.

(** What the rooms of the adapter hold: a connected socket is in the room
    of its own id and in the room of every user it was authenticated as,
    and a room has no other member. *)
Definition rooms_track (st : State) : Prop :=
  forall room sid,
    sid ∈ default ∅ (rooms st !! room) <->
    exists s, sockets st !! sid = Some s /\ connected s = true /\
              (room = sid \/ exists u, room = "user:" +:+ u /\ authenticated_as u s).

(** The Inbound Event shape: an object that names its event kind, its user
    and its job by strings. *)
Definition inbound_event (eventData : Json) : bool :=
  match eventData with
  | JObj fields =>
      match obj_lookup "eventType" fields, obj_lookup "userId" fields,
            obj_lookup "jobId" fields with
      | Some (JStr _), Some (JStr _), Some (JStr _) => true
      | _, _, _ => false
      end
  | _ => false
  end.

(** The two registry operations the service performs inline on
    [userConnections]. *)
Definition register (userId sid : string) (m : gmap string (gset string))
  : gmap string (gset string) :=
  <[userId := {[sid]} ∪ default ∅ (m !! userId)]> m.

Definition deregister (userId sid : string) (m : gmap string (gset string))
  : gmap string (gset string) :=
  match m !! userId with
  | Some userSockets =>
      if decide (userSockets ∖ {[sid]} = ∅) then delete userId m
      else <[userId := userSockets ∖ {[sid]}]> m
  | None => m
  end.

(** The connections the registry holds for a user. *)
Definition registered (userId : string) (m : gmap string (gset string)) : gset string :=
  default ∅ (m !! userId).

(** Every open connection with a bound user id is in the registry under
    that id, and no key of the registry maps to an empty set. *)
Definition registry_covers (st : State) : Prop :=
  (forall sid s u,
     sockets st !! sid = Some s -> connected s = true -> has_userId s = Some u ->
     sid ∈ registered u (userConnections st)) /\
  (forall u members, userConnections st !! u = Some members -> members <> ∅).

(** The failure signal of the authentication timer. *)
Definition timeout_signal : string * Obj :=
  ("auth_error", [("message", JStr "Authentication timeout")]).

(** The timeout signals among the packets written to a socket. *)
Definition is_timeout (p : string * Obj) : bool :=
  String.eqb p.1 "auth_error" &&
  match p.2 with
  | [(k, JStr message)] =>
      String.eqb k "message" && String.eqb message "Authentication timeout"
  | _ => false
  end.

(** How many timeout signals a list of packets holds. *)
Fixpoint timeouts (l : list (string * Obj)) : nat :=
  match l with
  | [] => 0
  | p :: rest => (if is_timeout p then 1 else 0) + timeouts rest
  end.

(** The packets written so far to the socket of a given id. *)
Definition emitted_of (st : State) (sid : string) : list (string * Obj) :=
  match sockets st !! sid with
  | Some s => emitted s
  | None => []
  end.

(** No socket was sent more than one timeout signal, and none whose timer
    is still armed. *)
Definition timer_once (st : State) : Prop :=
  forall sid,
    timeouts (emitted_of st sid) <= 1 /\
    (sid ∈ authTimers st -> timeouts (emitted_of st sid) = 0).

(** An error none of the tests of [verifyJwtToken]'s [catch] clause
    recognizes: it is thrown again. *)
Definition unclassified (error : JsError) : bool :=
  negb (String.eqb (err_name error) "JsonWebTokenError"
        || String.eqb (err_name error) "TokenExpiredError") &&
  negb (bool_decide (err_response_status error = Some 401%Z)) &&
  negb (err_request error).

(** The user a backend answered with, if it did. *)
Definition answered_user (a : Attempt) : option (string * string) :=
  match a with
  | Answered user => user
  | Raised _ => None
  end.

(** The JWT backend did not end with an error that is thrown again. *)
Definition jwt_settles (jwt : Attempt) : Prop :=
  match jwt with
  | Answered _ => True
  | Raised error => unclassified error = false
  end.

(** The event types [processEvent] has a case for. *)
Definition recognized (eventType : Json) : bool :=
  is_str eventType "analysis.completed" ||
  is_str eventType "analysis.failed" ||
  is_str eventType "analysis.started".

(** The world after [channel.nack(message, false, false)] with the socket
    service untouched, and after [channel.ack(message)] with the service in
    state [st']. *)
Definition nacked (m : EventConsumer.Message) (w : EventConsumer.World)
  : EventConsumer.World :=
  EventConsumer.mkWorld (EventConsumer.service w) (EventConsumer.broker w)
    (EventConsumer.isConsuming w) (EventConsumer.channel w)
    (EventConsumer.settled w ++
       [EventConsumer.Nack (EventConsumer.deliveryTag m) false false]).

Definition acked (m : EventConsumer.Message) (st' : State) (w : EventConsumer.World)
  : EventConsumer.World :=
  EventConsumer.mkWorld st' (EventConsumer.broker w)
    (EventConsumer.isConsuming w) (EventConsumer.channel w)
    (EventConsumer.settled w ++ [EventConsumer.Ack (EventConsumer.deliveryTag m)]).

(** An [initialize] that got its channel. *)
Definition is_ready (e : EventConsumer.Event) : Prop :=
  match e with
  | EventConsumer.EInitialize (Rabbitmq.Ready _ _) => True
  | _ => False
  end.

(** ** Scenarios *)

(** Identifiers as the upstream services issue them: UUIDs, which the
    validator of the webhook requests accepts. *)
Definition sample_user : string := "123e4567-e89b-42d3-a456-426614174000".
Definition sample_job : string := "123e4567-e89b-42d3-a456-426614174001".
Definition sample_result : string := "123e4567-e89b-42d3-a456-426614174002".

(** A [completed] event as the broker delivers it and the body of the
    matching webhook request. *)
Definition sample_completed_event : Json :=
  JObj [ ("eventType", JStr "analysis.completed");
         ("userId", JStr sample_user); ("jobId", JStr sample_job);
         ("resultId", JStr sample_result);
         ("metadata", JObj [("assessmentName", JStr "RIASEC")]) ].

Definition sample_complete_body : Json :=
  JObj [ ("userId", JStr sample_user); ("jobId", JStr sample_job);
         ("result_id", JStr sample_result);
         ("status", JStr "completed"); ("assessment_name", JStr "RIASEC") ].

(** The same for a [started] event; the request repeats the message of
    the broker path. *)
Definition sample_started_event : Json :=
  JObj [ ("eventType", JStr "analysis.started");
         ("userId", JStr sample_user); ("jobId", JStr sample_job);
         ("metadata", JObj [("assessmentName", JStr "RIASEC")]) ].

Definition sample_started_body : Json :=
  JObj [ ("userId", JStr sample_user); ("jobId", JStr sample_job);
         ("status", JStr "processing"); ("assessment_name", JStr "RIASEC");
         ("message", JStr "Your analysis has started processing...") ].

(** Two verified users. *)
Definition alice : User.t := User.mk "alice" "alice@example.org" "jwt".
Definition bob : User.t := User.mk "bob" "bob@example.org" "firebase".

(** A connection that never authenticates. *)
Definition idle_connection : State := run booted [EConnect "s1"].

(** A connection that sends [authenticate] without a token and nothing
    more until its timer fires. *)
Definition missing_token_session : State :=
  run booted [ EConnect "s1"; EAuthenticate "s1" JUndefined; EAuthTimer "s1" ].

(** A connection that authenticates at once. *)
Definition authenticated_once : State :=
  run booted
    [ EConnect "s1"; EAuthenticate "s1" (JStr "t1"); EVerified "s1" (Ok (Some alice)) ].

(** One user with two authenticated connections. *)
Definition two_devices : State :=
  run booted
    [ EConnect "s1"; EAuthenticate "s1" (JStr "t1"); EVerified "s1" (Ok (Some alice));
      EConnect "s2"; EAuthenticate "s2" (JStr "t2"); EVerified "s2" (Ok (Some alice)) ].

(** A connection that authenticates as one user, then as another, and
    closes. *)
Definition switched_identity : State :=
  run booted
    [ EConnect "s1";
      EAuthenticate "s1" (JStr "t1"); EVerified "s1" (Ok (Some alice));
      EAuthenticate "s1" (JStr "t2"); EVerified "s1" (Ok (Some bob));
      EClose "s1" ].

(** A connection whose peer leaves while the verifier is still answering. *)
Definition late_verification : State :=
  run booted
    [ EConnect "s1"; EAuthenticate "s1" (JStr "t1"); EClose "s1";
      EVerified "s1" (Ok (Some alice)) ].

(** [JSON.parse] on a few texts, for the examples. *)
Definition parse_literals (text : string) : option Json :=
  if String.eqb text "null" then Some JNull
  else if String.eqb text "{}" then Some (JObj [])
  else if String.eqb text "[]" then Some (JArr [])
  else if String.eqb text "true" then Some (JBool true)
  else if String.eqb text "false" then Some (JBool false)
  else None.

(** The text of a [completed] event that names no user and no job, and of
    one whose user id is an object with a [toString] property; [dquote] is
    the quotation mark. *)
Definition dquote : string := String (Ascii.ascii_of_nat 34) EmptyString.

Definition quoted (s : string) : string := dquote +:+ s +:+ dquote.

Definition anonymous_event_text : string :=
  "{" +:+ quoted "eventType" +:+ ":" +:+ quoted "analysis.completed" +:+ "}".

Definition anonymous_event : Json :=
  JObj [ ("eventType", JStr "analysis.completed") ].

Definition object_user_event_text : string :=
  "{" +:+ quoted "eventType" +:+ ":" +:+ quoted "analysis.completed" +:+ ","
      +:+ quoted "userId" +:+ ":{" +:+ quoted "toString" +:+ ":1},"
      +:+ quoted "jobId" +:+ ":" +:+ quoted sample_job
      +:+ "}".

Definition object_user_event : Json :=
  JObj [ ("eventType", JStr "analysis.completed");
         ("userId", JObj [("toString", JNum "1")]);
         ("jobId", JStr sample_job) ].

(** [JSON.parse] on these two texts and on the literals above. *)
Definition parse_samples (text : string) : option Json :=
  if String.eqb text anonymous_event_text then Some anonymous_event
  else if String.eqb text object_user_event_text then Some object_user_event
  else parse_literals text.

(** The consumer, initialized and consuming, next to an initialized socket
    service. *)
Definition consuming : EventConsumer.World :=
  EventConsumer.run EventConsumer.boot
    [ EventConsumer.EInitialize (Rabbitmq.Ready 1 1); EventConsumer.EStart true ].

(** The consumer after the broker connection was lost. *)
Definition after_connection_loss : EventConsumer.World :=
  EventConsumer.run consuming [EventConsumer.EConnectionLost].

(** The uuid test on the identifiers of the scenarios. *)
Definition sample_is_uuid (s : string) : bool :=
  String.eqb s sample_user || String.eqb s sample_job || String.eqb s sample_result.

(** Requests of the analysis worker, which knows the key, and of a client
    that does not. *)
Definition worker_headers : gmap string string :=
  {[ "x-service-key" := "s3cret"; "x-internal-service" := "analysis-worker" ]}.

Definition stranger_headers : gmap string string :=
  {[ "x-service-key" := "guess"; "x-internal-service" := "analysis-worker" ]}.

Definition sample_complete_request : Http.Request :=
  Http.mkRequest "/analysis-complete" worker_headers sample_complete_body.

Definition sample_started_request : Http.Request :=
  Http.mkRequest "/analysis-started" worker_headers sample_started_body.

Definition sample_failed_request : Http.Request :=
  Http.mkRequest "/analysis-failed" worker_headers
    (JObj [ ("userId", JStr sample_user); ("jobId", JStr sample_job);
            ("status", JStr "failed"); ("assessment_name", JStr "RIASEC");
            ("error_message", JStr "Model timeout") ]).

(** The same route reached with a trailing slash, which Express accepts,
    and a body no schema would let through. *)
Definition slash_request : Http.Request :=
  Http.mkRequest "/analysis-complete/" worker_headers
    (JObj [ ("userId", JNum "7") ]).

(** * Event-kind routing *)

Section Routing.

Lemma truthy_prop_destructurable k v : truthy (prop k v) = true -> destructurable v = true.
Proof. destruct v; simpl; congruence. Qed.

Lemma truthy_opt_prop k v : truthy (opt_prop k v) = true -> opt_prop k v = prop k v.
Proof. destruct v; simpl; congruence. Qed.

Lemma js_or_truthy a b : truthy a = true -> js_or a b = a.
Proof. unfold js_or. intros ->. reflexivity. Qed.

Lemma same_inputs_destructurable eventData body :
  same_inputs eventData body ->
  truthy (prop "assessment_name" body) = true ->
  destructurable eventData = true /\ destructurable body = true.
Proof.
  intros (_ & _ & _ & Hname & _) Ht. split.
  - rewrite <- Hname in Ht.
    apply truthy_opt_prop in Ht as Heq. rewrite Heq in Ht.
    apply truthy_prop_destructurable in Ht.
    destruct eventData; simpl in *; try congruence; reflexivity.
  - eapply truthy_prop_destructurable; eassumption.
Qed.

Lemma completed_payload_agrees eventData body :
  same_inputs eventData body ->
  truthy (prop "assessment_name" body) = true ->
  Broker.completedPayload eventData = Webhook.completePayload body.
Proof.
  intros (_ & _ & Hres & Hname & _) Ht.
  unfold Broker.completedPayload, Webhook.completePayload.
  rewrite Hres, Hname, js_or_truthy by assumption. reflexivity.
Qed.

Lemma failed_payload_agrees eventData body :
  same_inputs eventData body ->
  truthy (prop "assessment_name" body) = true ->
  Broker.failedPayload eventData = Webhook.failedPayload body.
Proof.
  intros (_ & _ & Hres & Hname & Hmsg) Ht.
  unfold Broker.failedPayload, Webhook.failedPayload.
  rewrite Hres, Hname, Hmsg, (js_or_truthy (prop "assessment_name" body)) by assumption.
  reflexivity.
Qed.

Lemma failed_event_name eventData :
  Broker.failedEventName eventData = "analysis-failed" \/
  Broker.failedEventName eventData = "analysis-unknown".
Proof. unfold Broker.failedEventName. case (is_str _ _); auto. Qed.

(** A route, once [serviceAuth] and [validateNotification] let the request
    through, answers with what [sendToUser] returned, or 500. *)
Lemma notify_calls event (wp : Json -> Obj) body now st :
  destructurable body = true ->
  Routes.notify event wp body now st =
  match sendToUser (prop "userId" body) event (wp body) now st with
  | Ok (sent, st') => (Routes.NotificationSent sent, st')
  | Throw _ => (Routes.InternalError, st)
  end.
Proof. intros Hb. unfold Routes.notify. rewrite Hb. reflexivity. Qed.

End Routing.

(** C1 (as amended): for [completed], [failed] and [unknown-type] events
    carrying equivalent input fields with a non-empty assessment name, the
    broker handler and the webhook route build the same payload, field for
    field and in the same order - status [completed] with the result id and
    the assessment name; status [failed] with the result id or [null], the
    assessment name and the error message - and make the same call of
    [sendToUser], under the same event name; the failed handler dispatches
    under [analysis-unknown] exactly when the error type is
    [UNSUPPORTED_ASSESSMENT_TYPE]. For [started] events the two payloads
    are never the same: the broker builds six fields (job id, result id or
    [null], status [processing], assessment name, a fixed message, the
    estimated time or [1-3 minutes]), the route four (job id, the status
    and the assessment name as received, the message received or a default
    one). *)
Theorem routing_paths_agree eventData body now st :
  same_inputs eventData body ->
  truthy (prop "assessment_name" body) = true ->
  let delivered (event : string) (payload : Obj) : Result State :=
    try! r := sendToUser (prop "userId" body) event payload now st in
    Ok r.2 in
  let answered (event : string) (payload : Obj) : Routes.Response * State :=
    match sendToUser (prop "userId" body) event payload now st with
    | Ok (sent, st') => (Routes.NotificationSent sent, st')
    | Throw _ => (Routes.InternalError, st)
    end in
  let completed :=
    [ ("status", JStr "completed");
      ("result_id", prop "result_id" body);
      ("assessment_name", prop "assessment_name" body) ] in
  let failed :=
    [ ("status", JStr "failed");
      ("result_id",
       if truthy (prop "result_id" body) then prop "result_id" body else JNull);
      ("assessment_name", prop "assessment_name" body);
      ("error_message", prop "error_message" body) ] in
  let unsupported :=
    is_str (opt_prop "errorType" (prop "metadata" eventData))
           "UNSUPPORTED_ASSESSMENT_TYPE" in
  (Broker.completedPayload eventData = completed /\
   Webhook.completePayload body = completed /\
   EventConsumer.handleAnalysisCompleted eventData now st =
     delivered "analysis-complete" completed /\
   Routes.analysis_complete body now st = answered "analysis-complete" completed) /\
  (Broker.failedPayload eventData = failed /\
   Webhook.failedPayload body = failed /\
   Webhook.unknownPayload body = failed /\
   (Broker.failedEventName eventData =
      if unsupported then "analysis-unknown" else "analysis-failed") /\
   EventConsumer.handleAnalysisFailed eventData now st =
     delivered (if unsupported then "analysis-unknown" else "analysis-failed") failed /\
   Routes.analysis_failed body now st = answered "analysis-failed" failed /\
   Routes.analysis_unknown body now st = answered "analysis-unknown" failed) /\
  (Broker.startedPayload eventData =
     [ ("jobId", prop "jobId" body);
       ("resultId",
        if truthy (prop "result_id" body) then prop "result_id" body else JNull);
       ("status", JStr "processing");
       ("assessment_name", prop "assessment_name" body);
       ("message", JStr "Your analysis has started processing...");
       ("estimated_time",
        if truthy (opt_prop "estimatedProcessingTime" (prop "metadata" eventData))
        then opt_prop "estimatedProcessingTime" (prop "metadata" eventData)
        else JStr "1-3 minutes") ] /\
   Webhook.startedPayload body =
     [ ("jobId", prop "jobId" body);
       ("status", prop "status" body);
       ("assessment_name", prop "assessment_name" body);
       ("message",
        if truthy (prop "message" body) then prop "message" body
        else JStr "Analysis processing started...") ] /\
   Broker.startedPayload eventData <> Webhook.startedPayload body /\
   EventConsumer.handleAnalysisStarted eventData now st =
     delivered "analysis-started" (Broker.startedPayload eventData) /\
   Routes.analysis_started body now st =
     answered "analysis-started" (Webhook.startedPayload body)).
Proof.
  intros Hsame Ht.
  destruct (same_inputs_destructurable _ _ Hsame Ht) as [He Hb].
  pose proof (completed_payload_agrees _ _ Hsame Ht) as Hc.
  pose proof (failed_payload_agrees _ _ Hsame Ht) as Hf.
  destruct Hsame as (Hu & Hj & Hres & Hname & Hmsg).
  cbv zeta.
  split; [|split].
  - split; [rewrite Hc; reflexivity|]. split; [reflexivity|]. split.
    + unfold EventConsumer.handleAnalysisCompleted.
      rewrite He, Hu, Hc. reflexivity.
    + apply (notify_calls _ Webhook.completePayload). exact Hb.
  - split; [rewrite Hf; reflexivity|].
    split; [reflexivity|]. split; [reflexivity|]. split; [reflexivity|].
    split; [|split].
    + unfold EventConsumer.handleAnalysisFailed, Broker.failedEventName.
      rewrite He, Hu, Hf. reflexivity.
    + apply (notify_calls _ Webhook.failedPayload). exact Hb.
    + apply (notify_calls _ Webhook.unknownPayload). exact Hb.
  - split; [|split; [reflexivity|split; [|split]]].
    + unfold Broker.startedPayload.
      rewrite Hj, Hres, Hname, (js_or_truthy (prop "assessment_name" body)) by assumption.
      reflexivity.
    + intros Heq. apply (f_equal length) in Heq. discriminate.
    + unfold EventConsumer.handleAnalysisStarted. rewrite He, Hu. reflexivity.
    + apply (notify_calls _ Webhook.startedPayload). exact Hb.
Qed.

Lemma routing_paths_agree_witness :
  Broker.completedPayload sample_completed_event =
  Webhook.completePayload sample_complete_body.
Proof.
  destruct (routing_paths_agree sample_completed_event sample_complete_body
              "t0" booted) as ((Hb & Hw & _) & _).
  - repeat split.
  - reflexivity.
  - rewrite Hb, Hw. reflexivity.
Defined.

(** C1 (as stated) fails for [started]: from equivalent inputs that the
    validator of the route accepts (UUIDs for the user and the job, status
    [processing], the very message of the broker path), the broker payload
    has six fields, with [resultId] and [estimated_time]; the webhook
    payload has four. *)
Lemma started_payloads_differ :
  same_inputs sample_started_event sample_started_body /\
  truthy (prop "assessment_name" sample_started_body) = true /\
  Broker.startedPayload sample_started_event <>
  Webhook.startedPayload sample_started_body /\
  Broker.startedPayload sample_started_event =
    [ ("jobId", JStr sample_job); ("resultId", JNull);
      ("status", JStr "processing"); ("assessment_name", JStr "RIASEC");
      ("message", JStr "Your analysis has started processing...");
      ("estimated_time", JStr "1-3 minutes") ] /\
  Webhook.startedPayload sample_started_body =
    [ ("jobId", JStr sample_job); ("status", JStr "processing");
      ("assessment_name", JStr "RIASEC");
      ("message", JStr "Your analysis has started processing...") ].
Proof.
  split; [repeat split|]. split; [reflexivity|].
  split; [|split; reflexivity].
  vm_compute. discriminate.
Qed.

(** * The dispatcher *)

Section Dispatcher.

Lemma obj_lookup_set_eq k v o : obj_lookup k (obj_set k v o) = Some v.
Proof.
  induction o as [|[k' v'] o IH]; simpl.
  - rewrite String.eqb_refl. reflexivity.
  - destruct (String.eqb k' k) eqn:E; simpl; rewrite E; auto.
Qed.

Lemma obj_lookup_set_ne k k0 v o :
  k0 <> k -> obj_lookup k0 (obj_set k v o) = obj_lookup k0 o.
Proof.
  intros Hne. induction o as [|[k' v'] o IH]; simpl.
  - destruct (String.eqb k k0) eqn:E; [|reflexivity].
    apply String.eqb_eq in E. congruence.
  - destruct (String.eqb k' k) eqn:E; simpl.
    + apply String.eqb_eq in E. subst k'.
      destruct (String.eqb k k0) eqn:E0; [|reflexivity].
      apply String.eqb_eq in E0. congruence.
    + rewrite IH. reflexivity.
Qed.

Lemma obj_set_fresh k v o : obj_lookup k o = None -> obj_set k v o = (o ++ [(k, v)])%list.
Proof.
  induction o as [|[k' v'] o IH]; simpl; [reflexivity|].
  destruct (String.eqb k' k); [discriminate|].
  intros H. rewrite IH by assumption. reflexivity.
Qed.

Lemma socketCount_positive (r : gmap string (gset string)) room :
  Nat.ltb 0 (match r !! room with
             | Some members => size members
             | None => 0
             end) = true <-> exists sid, sid ∈ default (∅ : gset string) (r !! room).
Proof.
  destruct (r !! room) as [members|]; simpl.
  - rewrite Nat.ltb_lt. split.
    + intros Hpos. apply size_pos_elem_of. lia.
    + intros [sid Hin]. destruct (decide (size members = 0)) as [Hz|]; [|lia].
      apply size_empty_inv in Hz. set_solver.
  - split; [discriminate|]. intros [sid Hin]. set_solver.
Qed.

Lemma room_emit_lookup room ev payload st sid :
  sockets (room_emit room ev payload st) !! sid =
  (fun s => if bool_decide (sid ∈ default (∅ : gset string) (rooms st !! room))
               && connected s
            then push ev payload s else s) <$> sockets st !! sid.
Proof.
  unfold room_emit. simpl. rewrite map_lookup_imap.
  destruct (sockets st !! sid); reflexivity.
Qed.

(** The room [sendToUser] looks up, for each kind of user id: a number
    shares the room of its text, an array that of its joined elements; an
    object has the room [user:[object Object]] unless it has a [toString]
    property, which makes the template literal throw. *)
Lemma user_room_by_kind :
  (forall s, user_room (JStr s) = Ok ("user:" +:+ s)) /\
  (forall text, user_room (JNum text) = user_room (JStr text)) /\
  user_room (JNum "1e+21") = Ok "user:1e+21" /\
  user_room JUndefined = Ok "user:undefined" /\
  user_room JNull = Ok "user:null" /\
  user_room (JBool false) = Ok "user:false" /\
  user_room (JArr []) = Ok "user:" /\
  user_room (JArr [JNum "1"; JNull; JArr [JStr "a"; JStr "b"]]) = Ok "user:1,,a,b" /\
  (forall fields,
     user_room (JObj fields) =
     match obj_lookup "toString" fields with
     | Some _ => Throw "TypeError"
     | None => Ok "user:[object Object]"
     end) /\
  user_room (JArr [JStr "a"; JObj [("toString", JNull)]]) = Throw "TypeError".
Proof.
  repeat split. intros fields. unfold user_room. simpl.
  destruct (obj_lookup "toString" fields); reflexivity.
Qed.

(** [socket.join] touches the rooms only. *)
Lemma socket_join_frame sid room st :
  initialized (socket_join sid room st) = initialized st /\
  sockets (socket_join sid room st) = sockets st /\
  userConnections (socket_join sid room st) = userConnections st /\
  offlineNotificationCount (socket_join sid room st) = offlineNotificationCount st /\
  authTimers (socket_join sid room st) = authTimers st /\
  verifying (socket_join sid room st) = verifying st.
Proof.
  unfold socket_join.
  destruct (sockets st !! sid) as [s|]; [destruct (connected s)|]; repeat split.
Qed.

Lemma socket_join_rooms sid room st :
  rooms (socket_join sid room st) =
  if is_connected sid st
  then <[room := {[sid]} ∪ default ∅ (rooms st !! room)]> (rooms st)
  else rooms st.
Proof.
  unfold socket_join, is_connected.
  destruct (sockets st !! sid) as [s|]; [destruct (connected s)|]; reflexivity.
Qed.

End Dispatcher.

(** * The connection registry *)

Section Registry.

Implicit Types (m : gmap string (gset string)) (u sid : string).

Lemma size_zero_empty (X : gset string) : size X = 0 <-> X = ∅.
Proof.
  split.
  - intros H. apply leibniz_equiv, size_empty_inv, H.
  - intros ->. apply size_empty.
Qed.

Lemma handleDisconnect_registry sid st :
  userConnections (handleDisconnect sid st) =
  match sockets st !! sid ≫= has_userId with
  | Some u => deregister u sid (userConnections st)
  | None => userConnections st
  end.
Proof.
  unfold handleDisconnect, deregister.
  destruct (sockets st !! sid) as [s|]; simpl; [|reflexivity].
  destruct (has_userId s) as [u|]; [|reflexivity].
  destruct (userConnections st !! u) as [S|]; [|reflexivity].
  destruct (decide (size (S ∖ {[sid]}) = 0)) as [Hz|Hnz];
    destruct (decide (S ∖ {[sid]} = ∅)) as [He|Hne]; try reflexivity.
  - apply size_zero_empty in Hz. contradiction.
  - apply size_zero_empty in He. contradiction.
Qed.

(** A successful authentication registers the connection. *)
Lemma resume_registers sid user st :
  userConnections (authenticateSocket_resume sid (Ok (Some user)) st) =
  register (User.id user) sid (userConnections st).
Proof.
  unfold authenticateSocket_resume, socket_emit. simpl.
  destruct (socket_join_frame sid ("user:" +:+ User.id user)
              (with_userConnections
                 (fun m => <[User.id user := {[sid]} ∪ default ∅ (m !! User.id user)]> m)
                 (with_sockets (alter (identify user) sid) st)))
    as (_ & _ & -> & _).
  reflexivity.
Qed.

Lemma handleDisconnect_sockets sid st :
  sockets (handleDisconnect sid st) = sockets st.
Proof.
  unfold handleDisconnect.
  destruct (sockets st !! sid) as [s|]; [|reflexivity].
  destruct (has_userId s); [|reflexivity].
  destruct (userConnections st !! _); [|reflexivity].
  destruct (decide _); reflexivity.
Qed.

Lemma handleDisconnect_rooms sid st :
  rooms (handleDisconnect sid st) = rooms st.
Proof.
  unfold handleDisconnect.
  destruct (sockets st !! sid) as [s|]; [|reflexivity].
  destruct (has_userId s); [|reflexivity].
  destruct (userConnections st !! _); [|reflexivity].
  destruct (decide _); reflexivity.
Qed.

Lemma registered_deregister_same u sid m :
  registered u (deregister u sid m) = registered u m ∖ {[sid]}.
Proof.
  unfold registered, deregister.
  destruct (m !! u) as [S|] eqn:Hu; simpl.
  - destruct (decide (S ∖ {[sid]} = ∅)) as [He|Hne].
    + rewrite lookup_delete_eq. simpl. congruence.
    + rewrite lookup_insert_eq. reflexivity.
  - rewrite Hu. simpl. set_solver.
Qed.

Lemma lookup_deregister_ne u u' sid m :
  u' <> u -> deregister u sid m !! u' = m !! u'.
Proof.
  intros Hne. unfold deregister.
  destruct (m !! u) as [S|]; [|reflexivity].
  destruct (decide _).
  - apply lookup_delete_ne. congruence.
  - apply lookup_insert_ne. congruence.
Qed.

(** Removing the last connection of a user removes the user's key. *)
Lemma deregister_last u sid m :
  registered u m ⊆ {[sid]} -> deregister u sid m !! u = None.
Proof.
  unfold registered, deregister. intros Hsub.
  destruct (m !! u) as [S|] eqn:Hu; simpl in *; [|exact Hu].
  destruct (decide (S ∖ {[sid]} = ∅)) as [He|Hne].
  - apply lookup_delete_eq.
  - exfalso. apply Hne. set_solver.
Qed.

(** A user with another connection keeps the key. *)
Lemma deregister_keeps u sid sid' m :
  sid' <> sid -> sid' ∈ registered u m ->
  deregister u sid m !! u = Some (registered u m ∖ {[sid]}).
Proof.
  unfold registered, deregister. intros Hne Hin.
  destruct (m !! u) as [S|] eqn:Hu; simpl in *; [|set_solver].
  destruct (decide (S ∖ {[sid]} = ∅)) as [He|_].
  - exfalso. set_solver.
  - apply lookup_insert_eq.
Qed.

(** No other connection is removed, of this user or of any other. *)
Lemma deregister_others u u' sid sid' m :
  sid' <> sid -> sid' ∈ registered u' m -> sid' ∈ registered u' (deregister u sid m).
Proof.
  intros Hne Hin. destruct (decide (u' = u)) as [->|Hu].
  - rewrite registered_deregister_same. set_solver.
  - unfold registered. rewrite lookup_deregister_ne by assumption. exact Hin.
Qed.

Lemma deregister_idempotent u sid m :
  deregister u sid (deregister u sid m) = deregister u sid m.
Proof.
  unfold deregister at 2 3.
  destruct (m !! u) as [S|] eqn:Hu.
  - destruct (decide (S ∖ {[sid]} = ∅)) as [He|Hne].
    + unfold deregister. rewrite lookup_delete_eq. reflexivity.
    + unfold deregister. rewrite lookup_insert_eq.
      replace (S ∖ {[sid]} ∖ {[sid]}) with (S ∖ {[sid]}) by set_solver.
      destruct (decide (S ∖ {[sid]} = ∅)); [contradiction|].
      apply insert_insert_eq.
  - unfold deregister. rewrite Hu. reflexivity.
Qed.

Lemma handleDisconnect_fixpoint sid st :
  userConnections (handleDisconnect sid st) = userConnections st ->
  handleDisconnect sid st = st.
Proof.
  unfold handleDisconnect.
  destruct (sockets st !! sid) as [s|]; [|reflexivity].
  destruct (has_userId s) as [u|]; [|reflexivity].
  destruct (userConnections st !! u) as [S|]; [|reflexivity].
  destruct (decide _); destruct st; unfold with_userConnections; simpl;
    intros ->; reflexivity.
Qed.

(** [handleDisconnect] twice is [handleDisconnect] once. *)
Lemma handleDisconnect_idempotent sid st :
  handleDisconnect sid (handleDisconnect sid st) = handleDisconnect sid st.
Proof.
  apply handleDisconnect_fixpoint.
  rewrite (handleDisconnect_registry sid (handleDisconnect sid st)).
  rewrite handleDisconnect_sockets, handleDisconnect_registry.
  destruct (sockets st !! sid ≫= has_userId); [|reflexivity].
  apply deregister_idempotent.
Qed.

End Registry.

(** C6 (the code at the failing case): once the connection that switched
    from alice to bob has closed, no connection is open, bob's key is gone
    and alice's key is still in the map, holding the closed connection. *)
Theorem stale_registry_entry :
  io_sockets switched_identity = ∅ /\
  userConnections switched_identity !! "bob" = None /\
  userConnections switched_identity !! "alice" = Some {[ "s1" ]} /\
  getConnectionCount switched_identity =
    Ok {| total := 0; authenticated := 1; users := 1 |}.
Proof. vm_compute. repeat split. Qed.

(** The same entry is left behind when the verifier answers after the
    connection has closed. *)
Lemma late_verification_registers_closed_socket :
  io_sockets late_verification = ∅ /\
  userConnections late_verification !! "alice" = Some {[ "s1" ]}.
Proof. vm_compute. repeat split. Qed.

(** * The authentication gate *)

Section Gate.

Lemma adapter_delAll_not_member sid room (r : gmap string (gset string)) :
  sid ∉ default (∅ : gset string) (adapter_delAll sid r !! room).
Proof.
  unfold adapter_delAll. rewrite lookup_omap.
  destruct (r !! room) as [members|]; simpl; [|set_solver].
  destruct (decide _); simpl; set_solver.
Qed.

(** What closing a connected socket does to the three structures. *)
Lemma socket_disconnect_connected sid st s :
  sockets st !! sid = Some s -> connected s = true ->
  sockets (socket_disconnect sid st) = <[sid := close s]> (sockets st) /\
  rooms (socket_disconnect sid st) = adapter_delAll sid (rooms st) /\
  userConnections (socket_disconnect sid st) =
    match has_userId s with
    | Some u => deregister u sid (userConnections st)
    | None => userConnections st
    end.
Proof.
  intros Hs Hc. unfold socket_disconnect. rewrite Hs, Hc.
  rewrite handleDisconnect_sockets, handleDisconnect_rooms, handleDisconnect_registry.
  simpl. rewrite lookup_insert_eq. simpl.
  repeat split.
Qed.

Lemma socket_disconnect_closed sid st s :
  sockets st !! sid = Some s -> connected s = false -> socket_disconnect sid st = st.
Proof. intros Hs Hc. unfold socket_disconnect. rewrite Hs, Hc. reflexivity. Qed.

(** An error signal followed by [socket.disconnect()]. *)
Lemma reject_and_close sid message st s :
  sockets st !! sid = Some s -> connected s = true ->
  let st' := socket_disconnect sid
               (socket_emit sid "auth_error" [("message", JStr message)] st) in
  exists s',
    sockets st' !! sid = Some s' /\
    connected s' = false /\
    emitted s' = (emitted s ++ [("auth_error", [("message", JStr message)])])%list /\
    (forall room, sid ∉ default (∅ : gset string) (rooms st' !! room)) /\
    userConnections st' =
      match has_userId s with
      | Some u => deregister u sid (userConnections st)
      | None => userConnections st
      end.
Proof.
  intros Hs Hc st'.
  set (st1 := socket_emit sid "auth_error" [("message", JStr message)] st).
  assert (Hs1 : sockets st1 !! sid =
                Some (push "auth_error" [("message", JStr message)] s)).
  { unfold st1, socket_emit. simpl. rewrite lookup_alter_eq, Hs. reflexivity. }
  destruct (socket_disconnect_connected sid st1 _ Hs1 Hc) as (Hsock & Hrooms & Hreg).
  eexists. subst st'. fold st1. rewrite Hsock, lookup_insert_eq.
  split; [reflexivity|]. split; [reflexivity|]. split; [reflexivity|].
  split.
  - intros room. rewrite Hrooms. apply adapter_delAll_not_member.
  - rewrite Hreg. reflexivity.
Qed.

(** A credential that is present and does not verify, or a verifier that
    throws: one [auth_error], then the socket is closed, out of every room
    and out of the registry entry of the user it was bound to. *)
Lemma rejected_credential_closes sid token verified st s :
  sockets st !! sid = Some s -> connected s = true ->
  truthy token = true ->
  (forall user, verified <> Ok (Some user)) ->
  exists s' message,
    sockets (authenticateSocket sid token verified st) !! sid = Some s' /\
    connected s' = false /\
    emitted s' = (emitted s ++ [("auth_error", [("message", JStr message)])])%list /\
    (forall room,
       sid ∉ default (∅ : gset string)
               (rooms (authenticateSocket sid token verified st) !! room)) /\
    (forall u, has_userId s = Some u ->
       sid ∉ registered u (userConnections (authenticateSocket sid token verified st))) /\
    (has_userId s = None ->
       userConnections (authenticateSocket sid token verified st) = userConnections st).
Proof.
  intros Hs Hc Htok Hfail.
  unfold authenticateSocket, authenticateSocket_begin. rewrite Htok. simpl.
  assert (Hgoal : forall message,
    let st' := socket_disconnect sid
                 (socket_emit sid "auth_error" [("message", JStr message)] st) in
    exists s' message0,
      sockets st' !! sid = Some s' /\ connected s' = false /\
      emitted s' = (emitted s ++ [("auth_error", [("message", JStr message0)])])%list /\
      (forall room, sid ∉ default (∅ : gset string) (rooms st' !! room)) /\
      (forall u, has_userId s = Some u -> sid ∉ registered u (userConnections st')) /\
      (has_userId s = None -> userConnections st' = userConnections st)).
  { intros message st'.
    destruct (reject_and_close sid message st s Hs Hc)
      as (s' & H1 & H2 & H3 & H4 & H5).
    exists s', message. fold st' in H1, H4, H5.
    repeat (split; [assumption|]). split.
    - intros u Hu. rewrite H5, Hu, registered_deregister_same. set_solver.
    - intros Hu. rewrite H5, Hu. reflexivity. }
  destruct verified as [[user|]|e]; simpl.
  - exfalso. eapply Hfail. reflexivity.
  - apply Hgoal.
  - apply Hgoal.
Qed.

(** A verifier that cannot be reached is reported as no user. *)
Lemma unreachable_verifier_no_user tokenType e1 e2 :
  err_request e1 = true ->
  verifyToken tokenType (Raised e1) (Raised e2) = Ok None.
Proof.
  intros Hreq. destruct tokenType; simpl; rewrite Hreq;
    destruct (_ || _); [reflexivity| |reflexivity|];
    destruct (bool_decide _); reflexivity.
Qed.

(** With both backends out of reach the attempt ends like one with an
    invalid token: the same single [auth_error], then the close. *)
Lemma unreachable_verifier_closes sid token tokenType e1 e2 st s :
  sockets st !! sid = Some s -> connected s = true ->
  truthy token = true ->
  err_request e1 = true ->
  exists s',
    sockets (authenticateSocket sid token
               (verifyToken tokenType (Raised e1) (Raised e2)) st) !! sid = Some s' /\
    connected s' = false /\
    emitted s' =
      (emitted s ++ [("auth_error", [("message", JStr "Invalid or expired token")])])%list.
Proof.
  intros Hs Hc Htok Hreq. rewrite unreachable_verifier_no_user by assumption.
  unfold authenticateSocket, authenticateSocket_begin. rewrite Htok. simpl.
  destruct (reject_and_close sid "Invalid or expired token" st s Hs Hc)
    as (s' & H1 & H2 & H3 & _).
  exists s'. auto.
Qed.

End Gate.

(** C4 (the code at the failing case): an [authenticate] message without a
    token gets one [auth_error] with the message [Token required] and
    nothing else happens: the socket is as connected as before, in the same
    rooms, and the registry is unchanged. *)
Theorem missing_token_keeps_connection sid token verified st s :
  sockets st !! sid = Some s ->
  truthy token = false ->
  let st' := authenticateSocket sid token verified st in
  sockets st' !! sid =
    Some (push "auth_error" [("message", JStr "Token required")] s) /\
  connected (push "auth_error" [("message", JStr "Token required")] s) = connected s /\
  rooms st' = rooms st /\
  userConnections st' = userConnections st /\
  authTimers st' = authTimers st.
Proof.
  intros Hs Htok st'. subst st'.
  unfold authenticateSocket, authenticateSocket_begin. rewrite Htok. simpl.
  rewrite lookup_alter_eq, Hs. repeat split.
Qed.

Lemma missing_token_keeps_connection_witness :
  connected <$>
    sockets (authenticateSocket "s1" JUndefined (Ok None)
               (run booted [EConnect "s1"])) !! "s1" = Some true.
Proof.
  destruct (missing_token_keeps_connection "s1" JUndefined (Ok None)
              (run booted [EConnect "s1"]) (mkSocket None None None true []))
    as (Hs & Hc & _).
  - vm_compute. reflexivity.
  - reflexivity.
  - rewrite Hs. simpl. reflexivity.
Defined.

(** Left open, the connection that sent no token is closed by its timer,
    with a second failure signal. *)
Lemma missing_token_then_timeout :
  sockets missing_token_session !! "s1" =
  Some (mkSocket None None None false
          [ ("auth_error", [("message", JStr "Token required")]);
            ("auth_error", [("message", JStr "Authentication timeout")]) ]).
Proof. vm_compute. reflexivity. Qed.

(** * What every reachable state satisfies *)

Section Reachable.

Lemma run_invariant (P : State -> Prop) :
  (forall st e, P st -> P (step st e)) ->
  forall events st, P st -> P (run st events).
Proof.
  intros Hstep events. induction events as [|e events IH]; intros st HP; simpl.
  - exact HP.
  - apply IH, Hstep, HP.
Qed.

(** States that differ only in what was written to sockets, in rooms, in
    counters or in pending callbacks. *)
Lemma registry_covers_frame st st' :
  (forall sid s', sockets st' !! sid = Some s' -> connected s' = true ->
     exists s, sockets st !! sid = Some s /\ connected s = true /\
               has_userId s = has_userId s') ->
  userConnections st' = userConnections st ->
  registry_covers st -> registry_covers st'.
Proof.
  intros Hsock Hreg [HR HN]. split.
  - intros sid s' u Hs' Hc Hu. rewrite Hreg.
    destruct (Hsock sid s' Hs' Hc) as (s & Hs & Hcs & Hid).
    apply (HR sid s u Hs Hcs). congruence.
  - rewrite Hreg. exact HN.
Qed.

Lemma lookup_socket_emit sid ev payload st sid' :
  sockets (socket_emit sid ev payload st) !! sid' =
  if decide (sid = sid') then push ev payload <$> sockets st !! sid
  else sockets st !! sid'.
Proof.
  unfold socket_emit. simpl. rewrite lookup_alter.
  destruct (decide (sid = sid')) as [->|]; reflexivity.
Qed.

Lemma registry_covers_socket_emit sid ev payload st :
  registry_covers st -> registry_covers (socket_emit sid ev payload st).
Proof.
  apply registry_covers_frame; [|reflexivity].
  intros sid' s' Hs' Hc. rewrite lookup_socket_emit in Hs'.
  destruct (decide (sid = sid')) as [->|]; [|eauto].
  destruct (sockets st !! sid') as [s|]; [|discriminate].
  injection Hs' as <-. eauto.
Qed.

Lemma registry_covers_room_emit room ev payload st :
  registry_covers st -> registry_covers (room_emit room ev payload st).
Proof.
  apply registry_covers_frame; [|reflexivity].
  intros sid' s' Hs' Hc. rewrite room_emit_lookup in Hs'.
  destruct (sockets st !! sid') as [s|]; [|discriminate].
  injection Hs' as <-. exists s. split; [reflexivity|].
  destruct (_ && _); simpl in *; auto.
Qed.

Lemma deregister_nonempty u sid (m : gmap string (gset string)) :
  (forall u' members, m !! u' = Some members -> members <> ∅) ->
  forall u' members, deregister u sid m !! u' = Some members -> members <> ∅.
Proof.
  intros HN u' members. unfold deregister.
  destruct (m !! u) as [S|] eqn:Hu; [|apply HN].
  destruct (decide (S ∖ {[sid]} = ∅)) as [He|Hne].
  - rewrite lookup_delete. case_decide; [discriminate|apply HN].
  - rewrite lookup_insert. case_decide; [|apply HN]. congruence.
Qed.

Lemma registry_covers_socket_disconnect sid st :
  registry_covers st -> registry_covers (socket_disconnect sid st).
Proof.
  intros [HR HN].
  destruct (sockets st !! sid) as [s|] eqn:Hs.
  2:{ unfold socket_disconnect. rewrite Hs. split; assumption. }
  destruct (connected s) eqn:Hc.
  2:{ rewrite (socket_disconnect_closed sid st s Hs Hc). split; assumption. }
  destruct (socket_disconnect_connected sid st s Hs Hc) as (Hsock & _ & Hreg).
  split.
  - intros sid' s' u. rewrite Hsock, Hreg, lookup_insert.
    case_decide as Heq.
    + intros [= <-]. discriminate.
    + intros Hs' Hc' Hu. pose proof (HR sid' s' u Hs' Hc' Hu) as Hin.
      destruct (has_userId s); [|exact Hin].
      apply deregister_others; [congruence|exact Hin].
  - rewrite Hreg. destruct (has_userId s); [|exact HN].
    apply deregister_nonempty, HN.
Qed.

Lemma registry_covers_socket_join sid room st :
  registry_covers st -> registry_covers (socket_join sid room st).
Proof.
  destruct (socket_join_frame sid room st) as (_ & Hs & Hu & _).
  apply registry_covers_frame; [|exact Hu].
  rewrite Hs. eauto.
Qed.

Lemma registry_covers_resume sid verified st :
  registry_covers st -> registry_covers (authenticateSocket_resume sid verified st).
Proof.
  intros Hcov. destruct verified as [[user|]|e]; simpl;
    try (apply registry_covers_socket_disconnect, registry_covers_socket_emit, Hcov).
  apply registry_covers_socket_emit, registry_covers_socket_join.
  destruct Hcov as [HR HN]. split.
  - intros sid' s' u. simpl. unfold registered.
    destruct (decide (sid = sid')) as [<-|Hne].
    + rewrite !lookup_alter_eq.
      destruct (sockets st !! sid) as [s|]; simpl; [|discriminate].
      intros [= <-] _. unfold has_userId. simpl.
      destruct (String.eqb _ _); [discriminate|]. intros [= <-].
      rewrite lookup_insert_eq. simpl. set_solver.
    + rewrite !lookup_alter_ne by assumption.
      intros Hs' Hc Hu. pose proof (HR sid' s' u Hs' Hc Hu) as Hin.
      unfold registered in Hin. rewrite lookup_insert. case_decide; [|exact Hin].
      subst u. simpl. set_solver.
  - intros u members. simpl. rewrite lookup_insert. case_decide; [|apply HN].
    intros [= <-]. set_solver.
Qed.

Lemma registry_covers_step st e :
  registry_covers st -> registry_covers (step st e).
Proof.
  intros Hcov. destruct e as [sid|sid token|sid verified|sid|sid|u ev data now|u]; simpl.
  - destruct (sockets st !! sid) eqn:Hs; [exact Hcov|].
    destruct (initialized st); [|exact Hcov].
    unfold on_connection.
    assert (Hcov' : registry_covers
              (socket_join sid sid
                 (with_sockets (<[sid := mkSocket None None None true []]>) st))).
    { apply registry_covers_socket_join.
      destruct Hcov as [HR HN]. split; [|exact HN].
      intros sid' s' u'. simpl. rewrite lookup_insert. case_decide.
      + intros [= <-]. discriminate.
      + apply HR. }
    revert Hcov'. apply registry_covers_frame; [eauto|reflexivity].
  - destruct (is_connected sid st); [|exact Hcov].
    unfold authenticateSocket_begin. destruct (negb (truthy token)).
    + apply registry_covers_socket_emit, Hcov.
    + revert Hcov. apply registry_covers_frame; [eauto|reflexivity].
  - case_bool_decide; [|exact Hcov].
    apply registry_covers_resume. revert Hcov.
    apply registry_covers_frame; [eauto|reflexivity].
  - apply registry_covers_socket_disconnect, Hcov.
  - case_bool_decide; [|exact Hcov]. unfold authTimeout. simpl.
    assert (Hcov' : registry_covers (with_authTimers (fun t => t ∖ {[sid]}) st)).
    { revert Hcov. apply registry_covers_frame; [eauto|reflexivity]. }
    destruct (sockets st !! sid) as [s|]; [|exact Hcov'].
    destruct (has_userId s); [exact Hcov'|].
    apply registry_covers_socket_disconnect, registry_covers_socket_emit, Hcov'.
  - unfold sendToUser.
    destruct (user_room u) as [room|]; simpl; [|exact Hcov].
    destruct (initialized st); [|exact Hcov].
    destruct (Nat.ltb _ _); [destruct (reserved_event ev); [exact Hcov|]|].
    + assert (Hcov' : registry_covers
                 (room_emit room ev (obj_set "timestamp" (JStr now) data) st))
        by apply registry_covers_room_emit, Hcov.
      destruct (offline_get _ _); [|exact Hcov'].
      revert Hcov'. apply registry_covers_frame; [eauto|reflexivity].
    + revert Hcov. apply registry_covers_frame; [eauto|reflexivity].
  - unfold disconnectUser. destruct (userConnections st !! u) as [members|]; [|exact Hcov].
    simpl. generalize (elements members) as l. intros l. revert st Hcov.
    induction l as [|sid l IH]; intros st Hcov; simpl; [exact Hcov|].
    apply IH. destruct (io_sockets st !! sid); [|exact Hcov].
    apply registry_covers_socket_disconnect, Hcov.
Qed.

(** The half of the registry invariant that the code keeps: in every
    reachable state each open connection with a bound user id is listed
    under that id, and every key has at least one connection listed. *)
Lemma reachable_registry_covers st : reachable st -> registry_covers st.
Proof.
  intros [events ->]. apply run_invariant.
  - intros st e. apply registry_covers_step.
  - split; intros *; simpl; [rewrite lookup_empty|rewrite lookup_empty]; discriminate.
Qed.

Lemma timeouts_snoc l p :
  timeouts (l ++ [p]) = timeouts l + (if is_timeout p then 1 else 0).
Proof. induction l as [|q l IH]; simpl; [lia|]. rewrite IH. lia. Qed.

Lemma obj_set_nonempty k v o : obj_set k v o <> [].
Proof. destruct o as [|[k' v'] o]; simpl; [|destruct (String.eqb k' k)]; discriminate. Qed.

Lemma timestamped_not_timeout ev now data :
  is_timeout (ev, obj_set "timestamp" (JStr now) data) = false.
Proof.
  unfold is_timeout. simpl. apply andb_false_intro2.
  destruct data as [|[k v] rest]; simpl; [reflexivity|].
  destruct (String.eqb k "timestamp") eqn:E.
  - apply String.eqb_eq in E. subst k. destruct rest; reflexivity.
  - pose proof (obj_set_nonempty "timestamp" (JStr now) rest) as Hne.
    destruct (obj_set "timestamp" (JStr now) rest); [contradiction|].
    destruct v; reflexivity.
Qed.

Lemma timer_once_frame st st' :
  (forall sid, timeouts (emitted_of st' sid) = timeouts (emitted_of st sid)) ->
  authTimers st' ⊆ authTimers st ->
  timer_once st -> timer_once st'.
Proof.
  intros Hem Ht H sid. rewrite Hem. destruct (H sid) as [H1 H0].
  split; [exact H1|]. intros Hin. apply H0, Ht, Hin.
Qed.

Lemma emitted_of_socket_emit sid ev payload st sid' :
  timeouts (emitted_of (socket_emit sid ev payload st) sid') =
  timeouts (emitted_of st sid') +
  (if decide (sid = sid') then
     match sockets st !! sid with
     | Some _ => if is_timeout (ev, payload) then 1 else 0
     | None => 0
     end
   else 0).
Proof.
  unfold emitted_of. rewrite lookup_socket_emit.
  destruct (decide (sid = sid')) as [<-|]; [|lia].
  destruct (sockets st !! sid); simpl; [apply timeouts_snoc|lia].
Qed.

Lemma authTimers_socket_disconnect sid st :
  authTimers (socket_disconnect sid st) = authTimers st.
Proof.
  unfold socket_disconnect. destruct (sockets st !! sid) as [s|]; [|reflexivity].
  destruct (connected s); [|reflexivity].
  unfold handleDisconnect. simpl. rewrite lookup_insert_eq.
  destruct (has_userId _); [|reflexivity].
  destruct (userConnections st !! _); [|reflexivity].
  destruct (decide _); reflexivity.
Qed.

Lemma emitted_of_socket_disconnect sid st sid' :
  emitted_of (socket_disconnect sid st) sid' = emitted_of st sid'.
Proof.
  destruct (sockets st !! sid) as [s|] eqn:Hs.
  2:{ unfold socket_disconnect. rewrite Hs. reflexivity. }
  destruct (connected s) eqn:Hc.
  2:{ rewrite (socket_disconnect_closed sid st s Hs Hc). reflexivity. }
  destruct (socket_disconnect_connected sid st s Hs Hc) as (Hsock & _).
  unfold emitted_of. rewrite Hsock, lookup_insert.
  case_decide; [subst; rewrite Hs|]; reflexivity.
Qed.

Lemma timer_once_socket_disconnect sid st :
  timer_once st -> timer_once (socket_disconnect sid st).
Proof.
  apply timer_once_frame.
  - intros sid'. rewrite emitted_of_socket_disconnect. reflexivity.
  - rewrite authTimers_socket_disconnect. reflexivity.
Qed.

Lemma timer_once_socket_emit sid ev payload st :
  is_timeout (ev, payload) = false ->
  timer_once st -> timer_once (socket_emit sid ev payload st).
Proof.
  intros Hnot. apply timer_once_frame; [|reflexivity].
  intros sid'. rewrite emitted_of_socket_emit, Hnot.
  case_decide; [destruct (sockets st !! sid)|]; lia.
Qed.

Lemma timer_once_room_emit room ev now data st :
  timer_once st ->
  timer_once (room_emit room ev (obj_set "timestamp" (JStr now) data) st).
Proof.
  apply timer_once_frame; [|reflexivity].
  intros sid'. unfold emitted_of. rewrite room_emit_lookup.
  destruct (sockets st !! sid') as [s|]; simpl; [|reflexivity].
  destruct (_ && _); [|reflexivity].
  simpl. rewrite timeouts_snoc, timestamped_not_timeout. lia.
Qed.

Lemma timer_once_socket_join sid room st :
  timer_once st -> timer_once (socket_join sid room st).
Proof.
  destruct (socket_join_frame sid room st) as (_ & Hs & _ & _ & Ht & _).
  apply timer_once_frame; [|rewrite Ht; reflexivity].
  intros sid'. unfold emitted_of. rewrite Hs. reflexivity.
Qed.

Lemma timer_once_resume sid verified st :
  timer_once st -> timer_once (authenticateSocket_resume sid verified st).
Proof.
  intros H. destruct verified as [[user|]|e]; simpl;
    try (apply timer_once_socket_disconnect, timer_once_socket_emit; [reflexivity|exact H]).
  apply timer_once_socket_emit; [reflexivity|].
  apply timer_once_socket_join.
  revert H. apply timer_once_frame; [|reflexivity].
  intros sid'. unfold emitted_of. simpl.
  destruct (decide (sid = sid')) as [<-|Hne].
  - rewrite lookup_alter_eq. destruct (sockets st !! sid); reflexivity.
  - rewrite lookup_alter_ne by assumption. reflexivity.
Qed.

Lemma timer_once_step st e : timer_once st -> timer_once (step st e).
Proof.
  intros H. destruct e as [sid|sid token|sid verified|sid|sid|u ev data now|u]; simpl.
  - destruct (sockets st !! sid) eqn:Hs; [exact H|].
    destruct (initialized st); [|exact H].
    unfold on_connection.
    destruct (socket_join_frame sid sid
                (with_sockets (<[sid := mkSocket None None None true []]>) st))
      as (_ & Hjs & _ & _ & Hjt & _).
    intros sid'. unfold emitted_of. simpl. rewrite Hjs, Hjt. simpl.
    rewrite lookup_insert.
    case_decide as Heq.
    + simpl. split; [lia|reflexivity].
    + destruct (H sid') as [H1 H0]. unfold emitted_of in H1, H0.
      split; [exact H1|]. intros Hin. apply H0. set_solver.
  - destruct (is_connected sid st); [|exact H].
    unfold authenticateSocket_begin. destruct (negb (truthy token)).
    + apply timer_once_socket_emit; [reflexivity|exact H].
    + revert H. apply timer_once_frame; [reflexivity|reflexivity].
  - case_bool_decide; [|exact H].
    apply timer_once_resume. revert H.
    apply timer_once_frame; [reflexivity|reflexivity].
  - apply timer_once_socket_disconnect, H.
  - case_bool_decide as Harmed; [|exact H]. unfold authTimeout. simpl.
    set (st0 := with_authTimers (fun t => t ∖ {[sid]}) st).
    assert (H0 : timer_once st0).
    { revert H. apply timer_once_frame; [reflexivity|]. simpl. set_solver. }
    destruct (sockets st !! sid) as [s|] eqn:Hs; [|exact H0].
    destruct (has_userId s); [exact H0|].
    intros sid'. rewrite emitted_of_socket_disconnect, authTimers_socket_disconnect.
    rewrite emitted_of_socket_emit. simpl.
    destruct (decide (sid = sid')) as [<-|Hne].
    + destruct (H sid) as [_ Hzero]. rewrite Hs.
      change (emitted_of st0 sid) with (emitted_of st sid).
      rewrite (Hzero Harmed). simpl. split; [lia|]. set_solver.
    + destruct (H sid') as [H1 Hz].
      change (emitted_of st0 sid') with (emitted_of st sid').
      split; [lia|]. intros Hin. rewrite Hz; [lia|set_solver].
  - unfold sendToUser.
    destruct (user_room u) as [room|]; simpl; [|exact H].
    destruct (initialized st); [|exact H].
    destruct (Nat.ltb _ _); [destruct (reserved_event ev); [exact H|]|].
    + assert (H' : timer_once
                 (room_emit room ev (obj_set "timestamp" (JStr now) data) st))
        by apply timer_once_room_emit, H.
      destruct (offline_get _ _); [|exact H'].
      revert H'. apply timer_once_frame; reflexivity.
    + revert H. apply timer_once_frame; reflexivity.
  - unfold disconnectUser. destruct (userConnections st !! u) as [members|]; [|exact H].
    simpl. generalize (elements members) as l. intros l. revert st H.
    induction l as [|sid l IH]; intros st H; simpl; [exact H|].
    apply IH. destruct (io_sockets st !! sid); [|exact H].
    apply timer_once_socket_disconnect, H.
Qed.

(** In every reachable state no connection has been sent more than one
    timeout signal, and none while its timer is still armed. *)
Lemma reachable_timer_once st : reachable st -> timer_once st.
Proof.
  intros [events ->]. apply run_invariant.
  - intros st e. apply timer_once_step.
  - intros sid. unfold emitted_of. simpl. rewrite lookup_empty. simpl.
    split; [lia|reflexivity].
Qed.

End Reachable.

(** * The rooms of the adapter *)

Section Rooms.

Lemma elem_of_adapter_delAll sid (r : gmap string (gset string)) room sid' :
  sid' ∈ default (∅ : gset string) (adapter_delAll sid r !! room) <->
  sid' ∈ default (∅ : gset string) (r !! room) /\ sid' <> sid.
Proof.
  unfold adapter_delAll. rewrite lookup_omap.
  destruct (r !! room) as [members|]; simpl; [|set_solver].
  destruct (decide _); simpl; set_solver.
Qed.

Lemma user_room_inj u u' : "user:" +:+ u = "user:" +:+ u' -> u = u'.
Proof. apply (inj (String.append "user:")). Qed.

(** One more packet makes a socket authenticated as a user only if it is
    the confirmation for that user. *)
Lemma authenticated_as_push ev payload s u :
  authenticated_as u (push ev payload s) <->
  authenticated_as u s \/
  exists user, User.id user = u /\ confirmation user = (ev, payload).
Proof.
  unfold authenticated_as. simpl. split.
  - intros (user & Hid & Hin). apply elem_of_app in Hin as [Hin|Hin].
    + left. exists user. auto.
    + right. exists user. apply list_elem_of_singleton in Hin. auto.
  - intros [(user & Hid & Hin)|(user & Hid & Heq)]; exists user; split; try assumption.
    + apply elem_of_app. left. exact Hin.
    + apply elem_of_app. right. apply list_elem_of_singleton. exact Heq.
Qed.

(** What [sendToUser] broadcasts is never a confirmation: it carries a
    timestamp. *)
Lemma timestamped_not_confirmation user ev now data :
  confirmation user <> (ev, obj_set "timestamp" (JStr now) data).
Proof.
  unfold confirmation. intros [= _ Hp].
  apply (f_equal (obj_lookup "timestamp")) in Hp.
  rewrite obj_lookup_set_eq in Hp. discriminate.
Qed.

Lemma error_not_confirmation user payload :
  confirmation user <> ("auth_error", payload).
Proof. discriminate. Qed.

(** States whose rooms are the same and whose sockets are the same up to
    fields and packets that say nothing about authentication. *)
Lemma rooms_track_frame st st' :
  rooms st' = rooms st ->
  (forall sid, exists f : Socket -> Socket,
     sockets st' !! sid = f <$> sockets st !! sid /\
     forall s, connected (f s) = connected s /\
               forall u, authenticated_as u (f s) <-> authenticated_as u s) ->
  rooms_track st -> rooms_track st'.
Proof.
  intros Hr Hs H room sid. rewrite Hr, (H room sid).
  destruct (Hs sid) as (f & Hf & Hsame). rewrite Hf.
  destruct (sockets st !! sid) as [s|]; simpl.
  - destruct (Hsame s) as [Hc Ha]. split.
    + intros (s0 & [= <-] & Hcs & Hroom). exists (f s).
      split; [reflexivity|]. rewrite Hc. split; [exact Hcs|].
      destruct Hroom as [?|(u & ? & ?)]; [auto|]. right. exists u. rewrite Ha. auto.
    + intros (s0 & [= <-] & Hcs & Hroom). exists s.
      split; [reflexivity|]. rewrite Hc in Hcs. split; [exact Hcs|].
      destruct Hroom as [?|(u & ? & Hu)]; [auto|]. right. exists u.
      rewrite Ha in Hu. auto.
  - split; intros (s0 & Hf0 & _); discriminate.
Qed.

Lemma rooms_track_same st st' :
  rooms st' = rooms st -> sockets st' = sockets st ->
  rooms_track st -> rooms_track st'.
Proof.
  intros Hr Hs. apply rooms_track_frame; [exact Hr|].
  intros sid. exists id. rewrite Hs, option_fmap_id. split; [reflexivity|].
  intros s. split; reflexivity.
Qed.

Lemma rooms_track_socket_emit sid ev payload st :
  (forall user, confirmation user <> (ev, payload)) ->
  rooms_track st -> rooms_track (socket_emit sid ev payload st).
Proof.
  intros Hnot. apply rooms_track_frame; [reflexivity|].
  intros sid'. rewrite lookup_socket_emit.
  destruct (decide (sid = sid')) as [<-|].
  - exists (push ev payload). split; [reflexivity|].
    intros s. split; [reflexivity|]. intros u. rewrite authenticated_as_push.
    split; [|auto]. intros [H|(user & _ & Heq)]; [exact H|].
    destruct (Hnot user Heq).
  - exists id. rewrite option_fmap_id. split; [reflexivity|].
    intros s. split; reflexivity.
Qed.

Lemma rooms_track_room_emit room ev now data st :
  rooms_track st ->
  rooms_track (room_emit room ev (obj_set "timestamp" (JStr now) data) st).
Proof.
  apply rooms_track_frame; [reflexivity|].
  intros sid. rewrite room_emit_lookup.
  eexists. split; [reflexivity|]. intros s. simpl.
  destruct (_ && _); [|split; reflexivity].
  split; [reflexivity|]. intros u. rewrite authenticated_as_push.
  split; [|auto]. intros [H|(user & _ & Heq)]; [exact H|].
  destruct (timestamped_not_confirmation user ev now data Heq).
Qed.

Lemma rooms_track_socket_disconnect sid st :
  rooms_track st -> rooms_track (socket_disconnect sid st).
Proof.
  intros H.
  destruct (sockets st !! sid) as [s|] eqn:Hs.
  2:{ unfold socket_disconnect. rewrite Hs. exact H. }
  destruct (connected s) eqn:Hc.
  2:{ rewrite (socket_disconnect_closed sid st s Hs Hc). exact H. }
  destruct (socket_disconnect_connected sid st s Hs Hc) as (Hsock & Hrooms & _).
  intros room sid'. rewrite Hsock, Hrooms, elem_of_adapter_delAll, (H room sid').
  rewrite lookup_insert. case_decide as Heq.
  - subst sid'. split.
    + intros [_ Hne]. congruence.
    + intros (s0 & [= <-] & Hcs & _). discriminate.
  - split.
    + intros [Hin _]. exact Hin.
    + intros Hin. split; [exact Hin|congruence].
Qed.

(** A new socket is in the room of its id and in no other. *)
Lemma rooms_track_on_connection sid st :
  sockets st !! sid = None ->
  rooms_track st -> rooms_track (on_connection sid st).
Proof.
  intros Hnone H. unfold on_connection.
  set (st1 := with_sockets (<[sid := mkSocket None None None true []]>) st).
  apply (rooms_track_same (socket_join sid sid st1)); [reflexivity|reflexivity|].
  destruct (socket_join_frame sid sid st1) as (_ & Hs & _).
  intros room sid'. rewrite Hs, socket_join_rooms.
  unfold is_connected, st1. simpl. rewrite lookup_insert_eq. simpl.
  assert (Hfresh : forall room0, sid ∉ default (∅ : gset string) (rooms st !! room0)).
  { intros room0 Hin. apply H in Hin as (s0 & Hs0 & _). congruence. }
  assert (Hnoauth : forall u, ~ authenticated_as u (mkSocket None None None true [])).
  { intros u (user & _ & Hin). simpl in Hin. apply elem_of_nil in Hin. exact Hin. }
  destruct (decide (sid = sid')) as [<-|Hne].
  - rewrite lookup_insert_eq. destruct (decide (sid = room)) as [<-|Hroom].
    + rewrite lookup_insert_eq. simpl. split.
      * intros _. eexists. split; [reflexivity|]. split; [reflexivity|]. left. reflexivity.
      * intros _. set_solver.
    + rewrite lookup_insert_ne by assumption. split.
      * intros Hin. destruct (Hfresh room Hin).
      * intros (s0 & [= <-] & _ & [Heq|(u & _ & Hu)]); [congruence|].
        destruct (Hnoauth u Hu).
  - rewrite (lookup_insert_ne (sockets st)) by assumption.
    rewrite <- (H room sid').
    destruct (decide (sid = room)) as [<-|Hroom].
    + rewrite lookup_insert_eq. simpl. set_solver.
    + rewrite lookup_insert_ne by assumption. reflexivity.
Qed.

(** A successful verification: the socket, if it is still connected,
    joins the room of the user and is told so. *)
Lemma rooms_track_authenticated sid user st :
  rooms_track st -> rooms_track (authenticateSocket_resume sid (Ok (Some user)) st).
Proof.
  intros H. unfold authenticateSocket_resume.
  set (st2 := with_userConnections _ (with_sockets (alter (identify user) sid) st)).
  set (room := "user:" +:+ User.id user).
  assert (H2 : rooms_track st2).
  { revert H. apply rooms_track_frame; [reflexivity|].
    intros sid'. simpl. destruct (decide (sid = sid')) as [<-|Hne].
    - rewrite lookup_alter_eq. exists (identify user). split; [reflexivity|].
      intros s. split; reflexivity.
    - rewrite lookup_alter_ne by assumption. exists id.
      rewrite option_fmap_id. split; [reflexivity|]. intros s. split; reflexivity. }
  clearbody st2.
  destruct (socket_join_frame sid room st2) as (_ & Hjs & _).
  pose proof (socket_join_rooms sid room st2) as Hjr.
  unfold is_connected in Hjr.
  intros room' sid'. rewrite lookup_socket_emit, Hjs. simpl rooms. rewrite Hjr.
  destruct (decide (sid = sid')) as [<-|Hne].
  2:{ destruct (sockets st2 !! sid) as [s|]; [destruct (connected s)|];
        try apply H2.
      rewrite <- (H2 room' sid').
      destruct (decide (room = room')) as [<-|Hroom].
      - rewrite lookup_insert_eq. simpl. set_solver.
      - rewrite lookup_insert_ne by assumption. reflexivity. }
  destruct (sockets st2 !! sid) as [s|] eqn:Hs; simpl.
  2:{ rewrite (H2 room' sid), Hs. reflexivity. }
  destruct (connected s) eqn:Hc.
  2:{ rewrite (H2 room' sid), Hs. split.
      - intros (s0 & [= <-] & Hcs & _). congruence.
      - intros (s0 & [= <-] & Hcs & _). simpl in Hcs. congruence. }
  assert (Hauth : forall u,
            authenticated_as u
              (push "authenticated"
                 [ ("success", JBool true); ("userId", JStr (User.id user));
                   ("email", JStr (User.email user));
                   ("tokenType", JStr (User.tokenType user)) ] s) <->
            authenticated_as u s \/ u = User.id user).
  { intros u. rewrite authenticated_as_push. split.
    - intros [Hu|(user' & Hid & Heq)]; [auto|]. right.
      unfold confirmation in Heq. injection Heq as Hid' _ _. congruence.
    - intros [Hu| ->]; [auto|]. right. exists user. split; reflexivity. }
  destruct (decide (room = room')) as [<-|Hroom].
  - rewrite lookup_insert_eq. simpl. split.
    + intros _. eexists. split; [reflexivity|]. split; [exact Hc|].
      right. exists (User.id user). split; [reflexivity|]. apply Hauth. auto.
    + intros _. set_solver.
  - rewrite lookup_insert_ne by assumption. rewrite (H2 room' sid), Hs. split.
    + intros (s0 & [= <-] & _ & Hin). eexists. split; [reflexivity|].
      split; [exact Hc|]. destruct Hin as [?|(u & ? & Hu)]; [auto|].
      right. exists u. split; [assumption|]. apply Hauth. auto.
    + intros (s0 & [= <-] & _ & Hin). exists s. split; [reflexivity|].
      split; [exact Hc|]. destruct Hin as [?|(u & Hu' & Hu)]; [auto|].
      right. exists u. split; [assumption|].
      apply Hauth in Hu as [Hu| ->]; [exact Hu|].
      exfalso. apply Hroom. rewrite Hu'. reflexivity.
Qed.

Lemma rooms_track_resume sid verified st :
  rooms_track st -> rooms_track (authenticateSocket_resume sid verified st).
Proof.
  intros H. destruct verified as [[user|]|e].
  - apply rooms_track_authenticated, H.
  - apply rooms_track_socket_disconnect, rooms_track_socket_emit;
      [intros user; apply error_not_confirmation|exact H].
  - apply rooms_track_socket_disconnect, rooms_track_socket_emit;
      [intros user; apply error_not_confirmation|exact H].
Qed.

Lemma rooms_track_step st e : rooms_track st -> rooms_track (step st e).
Proof.
  intros H. destruct e as [sid|sid token|sid verified|sid|sid|u ev data now|u]; simpl.
  - destruct (sockets st !! sid) eqn:Hs; [exact H|].
    destruct (initialized st); [|exact H].
    apply rooms_track_on_connection; assumption.
  - destruct (is_connected sid st); [|exact H].
    unfold authenticateSocket_begin. destruct (negb (truthy token)).
    + apply rooms_track_socket_emit; [intros user; apply error_not_confirmation|exact H].
    + revert H. apply rooms_track_same; reflexivity.
  - case_bool_decide; [|exact H].
    apply rooms_track_resume. revert H. apply rooms_track_same; reflexivity.
  - apply rooms_track_socket_disconnect, H.
  - case_bool_decide; [|exact H]. unfold authTimeout. simpl.
    assert (H' : rooms_track (with_authTimers (fun t => t ∖ {[sid]}) st)).
    { revert H. apply rooms_track_same; reflexivity. }
    destruct (sockets st !! sid) as [s|]; [|exact H'].
    destruct (has_userId s); [exact H'|].
    apply rooms_track_socket_disconnect, rooms_track_socket_emit;
      [intros user; apply error_not_confirmation|exact H'].
  - unfold sendToUser.
    destruct (user_room u) as [room|]; simpl; [|exact H].
    destruct (initialized st); [|exact H].
    destruct (Nat.ltb _ _); [destruct (reserved_event ev); [exact H|]|].
    + assert (H' : rooms_track
                 (room_emit room ev (obj_set "timestamp" (JStr now) data) st))
        by apply rooms_track_room_emit, H.
      destruct (offline_get _ _); [|exact H'].
      revert H'. apply rooms_track_same; reflexivity.
    + revert H. apply rooms_track_same; reflexivity.
  - unfold disconnectUser. destruct (userConnections st !! u) as [members|]; [|exact H].
    simpl. generalize (elements members) as l. intros l. revert st H.
    induction l as [|sid l IH]; intros st H; simpl; [exact H|].
    apply IH. destruct (io_sockets st !! sid); [|exact H].
    apply rooms_track_socket_disconnect, H.
Qed.

(** In every reachable state the rooms hold exactly the connected sockets,
    each under its own id and under the users it was authenticated as. *)
Lemma reachable_rooms_track st : reachable st -> rooms_track st.
Proof.
  intros [events ->]. apply run_invariant.
  - intros st e. apply rooms_track_step.
  - intros room sid. simpl. rewrite !lookup_empty. simpl. split.
    + intros Hin. set_solver.
    + intros (s & Hs & _). discriminate.
Qed.

Lemma step_initialized st e : initialized (step st e) = initialized st.
Proof.
  assert (Hdisc : forall sid st0, initialized (socket_disconnect sid st0) = initialized st0).
  { intros sid st0. unfold socket_disconnect.
    destruct (sockets st0 !! sid) as [s|]; [|reflexivity].
    destruct (connected s); [|reflexivity].
    unfold handleDisconnect. simpl. rewrite lookup_insert_eq.
    destruct (has_userId _); [|reflexivity].
    destruct (userConnections st0 !! _); [|reflexivity].
    destruct (decide _); reflexivity. }
  destruct e as [sid|sid token|sid verified|sid|sid|u ev data now|u]; simpl.
  - destruct (sockets st !! sid); [reflexivity|].
    destruct (initialized st) eqn:Hi; [|exact Hi].
    unfold on_connection. simpl.
    match goal with
    | |- context [socket_join ?a ?b ?c] => destruct (socket_join_frame a b c) as (-> & _)
    end.
    exact Hi.
  - destruct (is_connected sid st); [|reflexivity].
    unfold authenticateSocket_begin. destruct (negb (truthy token)); reflexivity.
  - case_bool_decide; [|reflexivity].
    destruct verified as [[user|]|e]; simpl; rewrite ?Hdisc; try reflexivity.
    match goal with
    | |- context [socket_join ?a ?b ?c] => destruct (socket_join_frame a b c) as (-> & _)
    end.
    reflexivity.
  - apply Hdisc.
  - case_bool_decide; [|reflexivity]. unfold authTimeout. simpl.
    destruct (sockets st !! sid) as [s|]; [|reflexivity].
    destruct (has_userId s); [reflexivity|]. rewrite Hdisc. reflexivity.
  - unfold sendToUser.
    destruct (user_room u) as [room|]; simpl; [|reflexivity].
    destruct (initialized st) eqn:Hi; [|exact Hi].
    destruct (Nat.ltb _ _);
      [destruct (reserved_event ev); [|destruct (offline_get _ _)]|]; exact Hi.
  - unfold disconnectUser. destruct (userConnections st !! u) as [members|]; [|reflexivity].
    simpl. generalize (elements members) as l. intros l. revert st.
    induction l as [|sid l IH]; intros st; simpl; [reflexivity|].
    rewrite IH. destruct (io_sockets st !! sid); [apply Hdisc|reflexivity].
Qed.

(** The server is set at start-up and stays. *)
Lemma reachable_initialized st : reachable st -> initialized st = true.
Proof.
  intros [events ->]. apply (run_invariant (fun st => initialized st = true)).
  - intros st e. rewrite step_initialized. auto.
  - reflexivity.
Qed.

(** The members of the room of a user are the user's live authenticated
    connections. *)
Lemma room_members_live st u sid :
  rooms_track st -> socket_ids_plain st ->
  sid ∈ default (∅ : gset string) (rooms st !! ("user:" +:+ u)) <-> live u st sid.
Proof.
  intros H Hplain. rewrite (H _ sid). unfold live. split.
  - intros (s & Hs & Hc & [Heq|(u' & Heq & Hu)]).
    + destruct (Hplain sid u); [rewrite Hs; eauto|congruence].
    + apply user_room_inj in Heq. subst u'. eauto.
  - intros (s & Hs & Hc & Hu). exists s. split; [exact Hs|]. split; [exact Hc|].
    right. exists u. auto.
Qed.

End Rooms.

(** * The dispatcher and the live connections *)


(** C3: when at least one connection of the user is live (and the event
    name is not one that Socket.IO reserves), [sendToUser] returns [true];
    the payload it emits is the caller's payload with the
    [timestamp] property set to the server time (appended when the caller's
    payload has none, every other property unchanged); every live
    connection authenticated as the user is handed exactly that one packet,
    and no other socket is handed anything. *)
Theorem sendToUser_delivers_to_all userId u event data now st :
  reachable st ->
  socket_ids_plain st ->
  js_to_string userId = Ok u ->
  reserved_event event = false ->
  (exists sid, live u st sid) ->
  let payload := obj_set "timestamp" (JStr now) data in
  exists st',
    sendToUser userId event data now st = Ok (true, st') /\
    obj_lookup "timestamp" payload = Some (JStr now) /\
    (forall k, k <> "timestamp" -> obj_lookup k payload = obj_lookup k data) /\
    (obj_lookup "timestamp" data = None ->
     payload = (data ++ [("timestamp", JStr now)])%list) /\
    (forall sid s, sockets st !! sid = Some s -> live u st sid ->
       sockets st' !! sid = Some (push event payload s) /\
       emitted (push event payload s) = (emitted s ++ [(event, payload)])%list) /\
    (forall sid s, sockets st !! sid = Some s -> ~ live u st sid ->
       sockets st' !! sid = Some s).
Proof.
  intros Hreach Hplain Hu Hres Hex payload.
  pose proof (reachable_rooms_track st Hreach) as Htrack.
  pose proof (reachable_initialized st Hreach) as Hinit.
  pose proof (room_members_live st u) as Hmem.
  unfold sendToUser, user_room. rewrite Hu. simpl. rewrite Hinit.
  assert (Hpos : Nat.ltb 0 (match rooms st !! ("user:" +:+ u) with
                            | Some members => size members
                            | None => 0
                            end) = true).
  { apply socketCount_positive. destruct Hex as [sid Hsid]. exists sid.
    apply Hmem; assumption. }
  rewrite Hpos, Hres.
  eexists. split; [reflexivity|].
  split; [apply obj_lookup_set_eq|].
  split; [intros k Hk; apply obj_lookup_set_ne; assumption|].
  split; [apply obj_set_fresh|].
  assert (Hsock : forall (count : option nat) (st1 : State),
    sockets (match count with
             | Some _ => with_offline (offline_delete userId) st1
             | None => st1
             end) = sockets st1).
  { intros [count|] st1; reflexivity. }
  split.
  - intros sid s Hs Hlive. rewrite Hsock, room_emit_lookup, Hs. simpl.
    rewrite bool_decide_eq_true_2 by (apply Hmem; assumption).
    destruct Hlive as (s0 & Hs0 & Hc & _).
    assert (s0 = s) by congruence. subst s0.
    rewrite Hc. simpl. split; reflexivity.
  - intros sid s Hs Hnot. rewrite Hsock, room_emit_lookup, Hs. simpl.
    rewrite bool_decide_eq_false_2; [reflexivity|].
    intros Hin. apply Hnot, Hmem; assumption.
Qed.

(** The two connections of [two_devices]. *)
Lemma two_devices_plain : socket_ids_plain two_devices.
Proof.
  assert (Hdom : dom (sockets two_devices) = ({[ "s1"; "s2" ]} : gset string))
    by (vm_compute; reflexivity).
  intros sid u Hsome Heq. apply elem_of_dom in Hsome. rewrite Hdom in Hsome.
  subst sid. apply elem_of_union in Hsome as [Hin|Hin];
    apply elem_of_singleton in Hin; discriminate Hin.
Qed.

Lemma two_devices_live :
  live "alice" two_devices "s1" /\ live "alice" two_devices "s2".
Proof.
  split; eexists; (split; [vm_compute; reflexivity|]);
    (split; [reflexivity|]); exists alice; (split; [reflexivity|]);
    apply list_elem_of_In; simpl; auto.
Qed.


(** A reserved event name makes [emit] throw when there is somebody to
    send to; with nobody, [sendToUser] returns [false] as for any name. *)
Lemma sendToUser_reserved_event :
  sendToUser (JStr "alice") "disconnect" [] "2024-01-01T12:00:00.000Z" two_devices =
    Throw "Error" /\
  exists st',
    sendToUser (JStr "bob") "disconnect" [] "2024-01-01T12:00:00.000Z" two_devices =
      Ok (false, st').
Proof. split; [reflexivity|]. eexists. reflexivity. Qed.


(** A connection that closed while the verifier was answering joins no
    room: it is not live, and nothing is sent to it. *)
Lemma late_verification_not_live :
  (forall sid, ~ live "alice" late_verification sid) /\
  rooms late_verification = ∅ /\
  exists st',
    sendToUser (JStr "alice") "analysis-complete" [("status", JStr "completed")]
               "2024-01-01T12:00:00.000Z" late_verification = Ok (false, st') /\
    sockets st' = sockets late_verification.
Proof.
  split; [|split; [vm_compute; reflexivity|eexists; split; reflexivity]].
  intros sid (s & Hs & Hc & _).
  assert (Hdom : dom (sockets late_verification) = ({[ "s1" ]} : gset string))
    by (vm_compute; reflexivity).
  assert (Hsid : sid ∈ dom (sockets late_verification))
    by (apply elem_of_dom; rewrite Hs; eauto).
  rewrite Hdom in Hsid. apply elem_of_singleton in Hsid. subst sid.
  vm_compute in Hs. injection Hs as <-. discriminate Hc.
Qed.

Lemma sendToUser_delivers_to_all_witness :
  exists st',
    sendToUser (JStr "alice") "analysis-complete" [("status", JStr "completed")]
               "2024-01-01T12:00:00.000Z" two_devices = Ok (true, st') /\
    (emitted <$> sockets st' !! "s1") =
      Some [ ("authenticated",
               [ ("success", JBool true); ("userId", JStr "alice");
                 ("email", JStr "alice@example.org"); ("tokenType", JStr "jwt") ]);
             ("analysis-complete",
               [ ("status", JStr "completed");
                 ("timestamp", JStr "2024-01-01T12:00:00.000Z") ]) ] /\
    (emitted <$> sockets st' !! "s2") = (emitted <$> sockets st' !! "s1").
Proof.
  destruct (sendToUser_delivers_to_all (JStr "alice") "alice" "analysis-complete"
              [("status", JStr "completed")] "2024-01-01T12:00:00.000Z" two_devices)
    as (st' & Hsend & _ & _ & _ & Hlive & _).
  - eexists. reflexivity.
  - exact two_devices_plain.
  - reflexivity.
  - reflexivity.
  - exists "s1". apply two_devices_live.
  - exists st'. split; [exact Hsend|].
    destruct two_devices_live as [H1 H2].
    destruct H1 as (s1 & Hs1 & Hrest1). destruct H2 as (s2 & Hs2 & Hrest2).
    rewrite (proj1 (Hlive "s1" s1 Hs1 (ex_intro _ s1 (conj Hs1 Hrest1)))).
    rewrite (proj1 (Hlive "s2" s2 Hs2 (ex_intro _ s2 (conj Hs2 Hrest2)))).
    vm_compute in Hs1, Hs2. injection Hs1 as <-. injection Hs2 as <-.
    split; reflexivity.
Defined.

(** * The authentication window *)

(** C5 (as amended): when the 10 s timer of a connection fires and no user
    id is bound to the socket, one timeout signal is emitted and the
    connection is closed; it is the only timeout signal that connection is
    ever sent. When a (non-empty) user id is bound, the callback emits
    nothing and changes nothing. The timer fires once. A successful
    authentication does not cancel it: the timer stays armed. *)
Theorem auth_timer_fires st sid s :
  sid ∈ authTimers st ->
  sockets st !! sid = Some s ->
  let st' := step st (EAuthTimer sid) in
  (sid ∉ authTimers st') /\
  step st' (EAuthTimer sid) = st' /\
  match has_userId s with
  | None =>
      exists s', sockets st' !! sid = Some s' /\
                 connected s' = false /\
                 emitted s' = (emitted s ++ [timeout_signal])%list /\
                 (reachable st -> timeouts (emitted s') = 1)
  | Some _ =>
      sockets st' = sockets st /\ rooms st' = rooms st /\
      userConnections st' = userConnections st
  end /\
  (forall user,
     authTimers (authenticateSocket_resume sid (Ok (Some user)) st) = authTimers st).
Proof.
  intros Harmed Hs st'.
  assert (Ht : authTimers st' = authTimers st ∖ {[sid]}).
  { subst st'. simpl. rewrite bool_decide_eq_true_2 by assumption.
    unfold authTimeout. simpl. rewrite Hs.
    destruct (has_userId s); [reflexivity|].
    unfold socket_disconnect. simpl. rewrite lookup_alter_eq, Hs. simpl.
    destruct (connected s); [|reflexivity].
    unfold handleDisconnect. simpl. rewrite lookup_insert_eq.
    destruct (has_userId _); [|reflexivity].
    destruct (userConnections st !! _); [|reflexivity].
    destruct (decide _); reflexivity. }
  assert (Hnot : sid ∉ authTimers st') by (rewrite Ht; set_solver).
  split; [exact Hnot|]. split.
  { simpl. rewrite bool_decide_eq_false_2 by assumption. reflexivity. }
  split.
  2:{ intros user. unfold authenticateSocket_resume, socket_emit. simpl.
      match goal with
      | |- context [socket_join ?a ?b ?c] =>
          destruct (socket_join_frame a b c) as (_ & _ & _ & _ & -> & _)
      end.
      reflexivity. }
  subst st'. simpl. rewrite bool_decide_eq_true_2 by assumption.
  unfold authTimeout. simpl. rewrite Hs.
  destruct (has_userId s) as [u|] eqn:Hu.
  - repeat split.
  - set (st0 := with_authTimers (fun t => t ∖ {[sid]}) st).
    assert (Hone : reachable st -> timeouts (emitted s ++ [timeout_signal]) = 1).
    { intros Hreach. destruct (reachable_timer_once st Hreach sid) as [_ Hzero].
      specialize (Hzero Harmed). unfold emitted_of in Hzero. rewrite Hs in Hzero.
      rewrite timeouts_snoc, Hzero. reflexivity. }
    destruct (connected s) eqn:Hc.
    + destruct (reject_and_close sid "Authentication timeout" st0 s Hs Hc)
        as (s' & H1 & H2 & H3 & _).
      exists s'. repeat (split; [assumption|]).
      fold timeout_signal in H3. rewrite H3. exact Hone.
    + exists (push "auth_error" [("message", JStr "Authentication timeout")] s).
      rewrite (socket_disconnect_closed sid _
                 (push "auth_error" [("message", JStr "Authentication timeout")] s)).
      * simpl. rewrite lookup_alter_eq, Hs. auto.
      * simpl. rewrite lookup_alter_eq, Hs. reflexivity.
      * exact Hc.
Qed.

Lemma auth_timer_fires_witness :
  exists s',
    sockets (step idle_connection (EAuthTimer "s1")) !! "s1" = Some s' /\
    connected s' = false /\
    emitted s' = [timeout_signal] /\
    timeouts (emitted s') = 1.
Proof.
  pose proof (auth_timer_fires idle_connection "s1"
                (mkSocket None None None true [])) as H.
  destruct H as (_ & _ & (s' & Hs' & Hc & He & Hone) & _).
  - vm_compute. set_solver.
  - vm_compute. reflexivity.
  - exists s'. split; [exact Hs'|]. split; [exact Hc|]. split; [exact He|].
    apply Hone. exists [EConnect "s1"]. reflexivity.
Defined.

(** C5 (as stated) fails: after a successful authentication the timer of
    the connection is still armed. *)
Lemma timer_survives_authentication :
  (userId <$> sockets authenticated_once !! "s1") = Some (Some "alice") /\
  "s1" ∈ authTimers authenticated_once.
Proof. split; [vm_compute; reflexivity|]. vm_compute. set_solver. Qed.

(** * The broker consumption loop *)

Section Consumption.

Variable JSON_parse : string -> option Json.

(** What [sendToUser] does, by the string conversion of the user id and
    the state of the service, for an event name that is not reserved. *)
Lemma sendToUser_settles userId event data now st :
  reserved_event event = false ->
  match js_to_string userId with
  | Ok u =>
      if initialized st
      then exists sent st', sendToUser userId event data now st = Ok (sent, st')
      else sendToUser userId event data now st = Throw "TypeError"
  | Throw e => sendToUser userId event data now st = Throw e
  end.
Proof.
  intros Hres. unfold sendToUser, user_room. rewrite Hres.
  destruct (js_to_string userId) as [u|e]; simpl; [|reflexivity].
  destruct (initialized st); [|reflexivity].
  destruct (Nat.ltb _ _); eexists _, _; reflexivity.
Qed.

Lemma sendToUser_throws userId event data now st :
  reserved_event event = false ->
  (exists e, sendToUser userId event data now st = Throw e) <->
  initialized st = false \/ exists e, js_to_string userId = Throw e.
Proof.
  intros Hres.
  pose proof (sendToUser_settles userId event data now st Hres) as H.
  destruct (js_to_string userId) as [u|e].
  - destruct (initialized st).
    + destruct H as (sent & st' & ->). split.
      * intros [e He]. discriminate.
      * intros [Hf|[e He]]; discriminate.
    + rewrite H. split; [auto|]. intros _. eexists. reflexivity.
  - rewrite H. split; [|intros _]; eauto.
Qed.

(** The names the broker handlers dispatch under are not reserved. *)
Lemma failedEventName_not_reserved eventData :
  reserved_event (Broker.failedEventName eventData) = false.
Proof. unfold Broker.failedEventName. destruct (is_str _ _); reflexivity. Qed.

(** A handler throws when its call of [sendToUser] does. *)
Lemma delivery_throws (r : Result (bool * State)) :
  (exists e, (try! x := r in Ok x.2) = Throw e) <-> exists e, r = Throw e.
Proof.
  destruct r as [x|e]; simpl; split; intros [e' He]; try discriminate; eauto.
Qed.

(** When the handling of a decoded event throws. *)
Lemma processEvent_throws eventData now st :
  (exists e, EventConsumer.processEvent eventData now st = Throw e) <->
  destructurable eventData = false \/
  (recognized (prop "eventType" eventData) = true /\
   (initialized st = false \/
    exists e, js_to_string (prop "userId" eventData) = Throw e)).
Proof.
  unfold EventConsumer.processEvent, recognized,
    EventConsumer.handleAnalysisCompleted, EventConsumer.handleAnalysisFailed,
    EventConsumer.handleAnalysisStarted.
  destruct (destructurable eventData) eqn:Hd.
  2:{ split; [auto|]. intros _. eexists. reflexivity. }
  destruct (is_str _ "analysis.completed");
    [|destruct (is_str _ "analysis.failed");
      [|destruct (is_str _ "analysis.started")]]; simpl;
    try (rewrite delivery_throws,
           sendToUser_throws by (try reflexivity; apply failedEventName_not_reserved);
         split; [intros H; right; split; [reflexivity|exact H]
                |intros [Hf|[_ H]]; [discriminate|exact H]]).
  split; [intros [e He]; discriminate|].
  intros [Hf|[Hf _]]; discriminate.
Qed.

(** What a recognized event hands to [sendToUser]. *)
Lemma processEvent_delivers eventData now st :
  destructurable eventData = true ->
  recognized (prop "eventType" eventData) = true ->
  exists event payload,
    reserved_event event = false /\
    EventConsumer.processEvent eventData now st =
    (try! r := sendToUser (prop "userId" eventData) event payload now st in
     Ok r.2).
Proof.
  intros Hd. unfold EventConsumer.processEvent, recognized,
    EventConsumer.handleAnalysisCompleted, EventConsumer.handleAnalysisFailed,
    EventConsumer.handleAnalysisStarted.
  rewrite Hd.
  destruct (is_str _ "analysis.completed");
    [|destruct (is_str _ "analysis.failed");
      [|destruct (is_str _ "analysis.started")]]; simpl;
    try discriminate; intros _; eexists _, _;
    (split; [|reflexivity]);
    try reflexivity; apply failedEventName_not_reserved.
Qed.

(** C7 (as amended): a message is rejected with [nack(message, false,
    false)] - not requeued -, the socket service being left untouched,
    exactly when its handling throws, which is when its body does not
    parse, or parses to [null], or has a recognized event type while the
    user id has no string conversion or the socket service has no server.
    Every other message is acknowledged, the service being in the state
    its handler produced: a body that parses is not checked against any
    shape, and with a recognized event type it leads to a call of
    [sendToUser] for whatever its [userId] property holds. *)
Theorem onMessage_settles m now w :
  let st := EventConsumer.service w in
  let outcome := EventConsumer.onMessage JSON_parse (Some m) now w in
  let rejected :=
    match JSON_parse (EventConsumer.content m) with
    | None => True
    | Some eventData =>
        destructurable eventData = false \/
        (recognized (prop "eventType" eventData) = true /\
         (initialized st = false \/
          exists e, js_to_string (prop "userId" eventData) = Throw e))
    end in
  (JSON_parse (EventConsumer.content m) = None -> outcome = nacked m w) /\
  (forall e, EventConsumer.handle JSON_parse m now st = Throw e ->
   outcome = nacked m w) /\
  (forall st', EventConsumer.handle JSON_parse m now st = Ok st' ->
   outcome = acked m st' w) /\
  ((exists e, EventConsumer.handle JSON_parse m now st = Throw e) <-> rejected) /\
  (rejected -> outcome = nacked m w) /\
  (~ rejected ->
   exists st', EventConsumer.handle JSON_parse m now st = Ok st' /\
               outcome = acked m st' w) /\
  (forall eventData u,
     JSON_parse (EventConsumer.content m) = Some eventData ->
     destructurable eventData = true ->
     recognized (prop "eventType" eventData) = true ->
     js_to_string (prop "userId" eventData) = Ok u ->
     initialized st = true ->
     exists event payload sent st',
       sendToUser (prop "userId" eventData) event payload now st = Ok (sent, st') /\
       outcome = acked m st' w).
Proof.
  intros st outcome rejected.
  assert (Hthrows : (exists e, EventConsumer.handle JSON_parse m now st = Throw e)
                    <-> rejected).
  { subst rejected. unfold EventConsumer.handle.
    destruct (JSON_parse _); [apply processEvent_throws|].
    split; [auto|]. intros _. eexists. reflexivity. }
  assert (Hnack : forall e, EventConsumer.handle JSON_parse m now st = Throw e ->
                            outcome = nacked m w).
  { intros e He. subst outcome st. unfold EventConsumer.onMessage.
    rewrite He. reflexivity. }
  assert (Hack : forall st', EventConsumer.handle JSON_parse m now st = Ok st' ->
                             outcome = acked m st' w).
  { intros st' He. subst outcome st. unfold EventConsumer.onMessage.
    rewrite He. reflexivity. }
  split.
  { intros Hnone. apply (Hnack "SyntaxError").
    unfold EventConsumer.handle. rewrite Hnone. reflexivity. }
  split; [exact Hnack|]. split; [exact Hack|]. split; [exact Hthrows|].
  split.
  { intros Hr. apply Hthrows in Hr as [e He]. apply (Hnack e He). }
  split.
  { intros Hr. destruct (EventConsumer.handle JSON_parse m now st) as [st'|e] eqn:He.
    - exists st'. split; [reflexivity|]. apply Hack. reflexivity.
    - exfalso. apply Hr, Hthrows. exists e. reflexivity. }
  intros eventData u Hparse Hd Hrec Hu Hinit.
  destruct (processEvent_delivers eventData now st Hd Hrec)
    as (event & payload & Hres & Hp).
  pose proof (sendToUser_settles (prop "userId" eventData) event payload now st Hres)
    as Hs.
  rewrite Hu, Hinit in Hs. destruct Hs as (sent & st' & Hs).
  exists event, payload, sent, st'. split; [exact Hs|].
  apply Hack. unfold EventConsumer.handle. rewrite Hparse, Hp, Hs. reflexivity.
Qed.

(** C9: a message that parses to a value other than [null] whose
    [eventType] is none of the three recognized names is acknowledged,
    not rejected, and the socket service is left exactly as it was: no
    delivery to any user. *)
Theorem unknown_event_type_acked m now w eventData :
  JSON_parse (EventConsumer.content m) = Some eventData ->
  destructurable eventData = true ->
  recognized (prop "eventType" eventData) = false ->
  EventConsumer.onMessage JSON_parse (Some m) now w = acked m (EventConsumer.service w) w.
Proof.
  intros Hparse Hd Hr.
  unfold EventConsumer.onMessage, EventConsumer.handle, EventConsumer.processEvent.
  rewrite Hparse, Hd. unfold recognized in Hr.
  apply orb_false_iff in Hr as [Hr Hs]. apply orb_false_iff in Hr as [Hc Hf].
  rewrite Hc, Hf, Hs. reflexivity.
Qed.

End Consumption.

Lemma onMessage_settles_witness :
  EventConsumer.settled
    (EventConsumer.onMessage parse_samples
       (Some (EventConsumer.mkMessage "{ not json" 7)) "t0" consuming) =
    [EventConsumer.Nack 7 false false] /\
  EventConsumer.settled
    (EventConsumer.onMessage parse_samples
       (Some (EventConsumer.mkMessage "null" 8)) "t0" consuming) =
    [EventConsumer.Nack 8 false false] /\
  EventConsumer.settled
    (EventConsumer.onMessage parse_samples
       (Some (EventConsumer.mkMessage object_user_event_text 9)) "t0" consuming) =
    [EventConsumer.Nack 9 false false] /\
  EventConsumer.settled
    (EventConsumer.onMessage parse_samples
       (Some (EventConsumer.mkMessage "{}" 10)) "t0" consuming) =
    [EventConsumer.Ack 10].
Proof.
  destruct (onMessage_settles parse_samples
              (EventConsumer.mkMessage "{ not json" 7) "t0" consuming) as (H1 & _).
  destruct (onMessage_settles parse_samples
              (EventConsumer.mkMessage "null" 8) "t0" consuming)
    as (_ & _ & _ & _ & H2 & _).
  destruct (onMessage_settles parse_samples
              (EventConsumer.mkMessage object_user_event_text 9) "t0" consuming)
    as (_ & _ & _ & _ & H3 & _).
  destruct (onMessage_settles parse_samples
              (EventConsumer.mkMessage "{}" 10) "t0" consuming)
    as (_ & _ & H4 & _).
  rewrite H1 by reflexivity.
  rewrite H2 by (left; reflexivity).
  rewrite H3 by (right; split; [reflexivity|right; exists "TypeError"; reflexivity]).
  rewrite (H4 (EventConsumer.service consuming)) by reflexivity.
  repeat split.
Defined.

(** C7 (as stated) fails: a [completed] event that names no user and no
    job does not have the Inbound Event shape, yet it is acknowledged, and
    a delivery is attempted for the user id [undefined]: [sendToUser] is
    called, finds nobody and counts one missed notification. *)
Lemma anonymous_event_acked :
  parse_samples anonymous_event_text = Some anonymous_event /\
  inbound_event anonymous_event = false /\
  sendToUser JUndefined "analysis-complete"
    (Broker.completedPayload anonymous_event) "t0"
    (EventConsumer.service consuming) =
    Ok (false,
        with_offline (fun _ => [(JUndefined, 1)]) (EventConsumer.service consuming)) /\
  EventConsumer.onMessage parse_samples
    (Some (EventConsumer.mkMessage anonymous_event_text 7)) "t0" consuming =
  acked (EventConsumer.mkMessage anonymous_event_text 7)
        (with_offline (fun _ => [(JUndefined, 1)]) (EventConsumer.service consuming))
        consuming /\
  EventConsumer.settled
    (EventConsumer.onMessage parse_samples
       (Some (EventConsumer.mkMessage anonymous_event_text 7)) "t0" consuming) =
    [EventConsumer.Ack 7].
Proof. repeat split. Qed.

Lemma unknown_event_type_acked_witness :
  EventConsumer.onMessage parse_literals
    (Some (EventConsumer.mkMessage "{}" 9)) "t0" consuming =
  acked (EventConsumer.mkMessage "{}" 9) (EventConsumer.service consuming) consuming.
Proof.
  apply (unknown_event_type_acked parse_literals
           (EventConsumer.mkMessage "{}" 9) "t0" consuming (JObj [])).
  - reflexivity.
  - reflexivity.
  - reflexivity.
Defined.

(** * The status of the consumer *)

Section Status.

Import EventConsumer.

Lemma step_channel w e :
  channel (EventConsumer.step w e) <> None <-> channel w <> None \/ is_ready e.
Proof.
  destruct e as [o|b|b| |c o]; simpl.
  - destruct o; simpl; try tauto.
    split; [right; exact I|intros _; discriminate].
  - unfold startConsuming. destruct (isConsuming w); simpl; [tauto|].
    destruct (channel w) eqn:Hch; simpl; rewrite ?Hch; [|tauto].
    destruct b; simpl; rewrite ?Hch; tauto.
  - unfold stopConsuming. destruct (channel w) eqn:Hch; simpl; rewrite ?Hch; [|tauto].
    destruct (isConsuming w); simpl; rewrite ?Hch; [|tauto].
    destruct b; simpl; rewrite ?Hch; tauto.
  - tauto.
  - tauto.
Qed.

Lemma run_channel events w :
  channel (EventConsumer.run w events) <> None <->
  channel w <> None \/ Exists is_ready events.
Proof.
  revert w. induction events as [|e events IH]; intros w; simpl.
  - rewrite Exists_nil. tauto.
  - unfold EventConsumer.run in IH. rewrite IH, step_channel, Exists_cons. tauto.
Qed.

Lemma step_consuming w e :
  (isConsuming w = true -> channel w <> None) ->
  isConsuming (EventConsumer.step w e) = true ->
  channel (EventConsumer.step w e) <> None.
Proof.
  intros Hinv. destruct e as [o|b|b| |c o]; simpl; auto.
  - destruct o; simpl; auto.
  - unfold startConsuming.
    destruct (isConsuming w) eqn:Hc, (channel w) eqn:Hch, b; simpl;
      rewrite ?Hc, ?Hch; try discriminate; auto.
  - unfold stopConsuming.
    destruct (isConsuming w) eqn:Hc, (channel w) eqn:Hch, b; simpl;
      rewrite ?Hc, ?Hch; try discriminate; auto.
Qed.

Lemma run_consuming events w :
  (isConsuming w = true -> channel w <> None) ->
  isConsuming (EventConsumer.run w events) = true ->
  channel (EventConsumer.run w events) <> None.
Proof.
  revert w. induction events as [|e events IH]; intros w Hinv; simpl; [exact Hinv|].
  apply IH. apply step_consuming. exact Hinv.
Qed.

(** Neither the loss of the broker connection nor a reconnection changes
    what [getStatus] reports. *)
Lemma reconnect_config closes o r :
  Rabbitmq.config (Rabbitmq.reconnect closes o r) = Rabbitmq.config r.
Proof.
  unfold Rabbitmq.reconnect. destruct (Rabbitmq.reconnectTimers r); [reflexivity|].
  simpl. destruct (Rabbitmq.connection r), closes, o; reflexivity.
Qed.

Lemma status_ignores_connection w closes o :
  getStatus (EventConsumer.step w EConnectionLost) = getStatus w /\
  getStatus (EventConsumer.step w (EReconnect closes o)) = getStatus w.
Proof.
  split; [reflexivity|]. unfold getStatus. simpl.
  rewrite reconnect_config. reflexivity.
Qed.

End Status.

(** C8 (as amended): [getStatus] returns an object with the four
    properties [isConsuming], [isConnected], [queue] and [exchange], in that
    order. [isConsuming] is the consuming flag of the loop: set by a
    [startConsuming] that subscribes, cleared by a [stopConsuming] that
    cancels. [isConnected] is [true] exactly when the consumer holds a
    channel, that is, when an [initialize] has succeeded since start-up; a
    consuming loop always reports itself connected. *)
Theorem getStatus_reports events :
  let w := EventConsumer.run EventConsumer.boot events in
  (EventConsumer.getStatus w).*1 = ["isConsuming"; "isConnected"; "queue"; "exchange"] /\
  obj_lookup "isConsuming" (EventConsumer.getStatus w) =
    Some (JBool (EventConsumer.isConsuming w)) /\
  (obj_lookup "isConnected" (EventConsumer.getStatus w) = Some (JBool true) <->
   Exists is_ready events) /\
  (obj_lookup "isConnected" (EventConsumer.getStatus w) = Some (JBool false) <->
   ~ Exists is_ready events) /\
  (EventConsumer.isConsuming w = true ->
   obj_lookup "isConnected" (EventConsumer.getStatus w) = Some (JBool true)) /\
  (EventConsumer.channel w <> None ->
   EventConsumer.isConsuming (EventConsumer.step w (EventConsumer.EStart true)) = true /\
   EventConsumer.isConsuming (EventConsumer.step w (EventConsumer.EStop true)) = false).
Proof.
  intros w.
  pose proof (run_channel events EventConsumer.boot) as Hch. fold w in Hch.
  assert (Hboot : EventConsumer.channel EventConsumer.boot <> None <-> False)
    by (simpl; tauto).
  assert (Hconn : obj_lookup "isConnected" (EventConsumer.getStatus w) =
                  Some (JBool (bool_decide (EventConsumer.channel w <> None))))
    by reflexivity.
  split; [reflexivity|]. split; [reflexivity|].
  rewrite Hconn. split; [|split; [|split]].
  - split.
    + intros [= Hb]. apply bool_decide_eq_true_1 in Hb. tauto.
    + intros Hex. rewrite bool_decide_eq_true_2; [reflexivity|tauto].
  - split.
    + intros [= Hb]. apply bool_decide_eq_false_1 in Hb. tauto.
    + intros Hex. rewrite bool_decide_eq_false_2; [reflexivity|tauto].
  - intros Hc. rewrite bool_decide_eq_true_2; [reflexivity|].
    apply run_consuming; [discriminate|exact Hc].
  - intros Hsome. simpl.
    unfold EventConsumer.startConsuming, EventConsumer.stopConsuming.
    destruct (EventConsumer.channel w); [|contradiction].
    destruct (EventConsumer.isConsuming w) eqn:Hc; simpl; rewrite ?Hc; auto.
Qed.

Lemma getStatus_reports_witness :
  obj_lookup "isConnected" (EventConsumer.getStatus consuming) = Some (JBool true).
Proof.
  destruct (getStatus_reports
              [ EventConsumer.EInitialize (Rabbitmq.Ready 1 1);
                EventConsumer.EStart true ]) as (_ & _ & _ & _ & Hconsuming & _).
  apply Hconsuming. reflexivity.
Defined.

(** C8 (as stated) fails: the object has four properties, none of them
    named [consuming] or [connected], and after the connection to the
    broker is lost it still says [isConnected: true]. *)
Lemma status_after_connection_loss :
  EventConsumer.getStatus after_connection_loss =
    [ ("isConsuming", JBool true); ("isConnected", JBool true);
      ("queue", JStr "analysis_events_notifications");
      ("exchange", JStr "atma_events_exchange") ] /\
  EventConsumer.getStatus after_connection_loss <>
    [ ("consuming", JBool true); ("connected", JBool false) ] /\
  Rabbitmq.reconnectTimers (EventConsumer.broker after_connection_loss) = 1.
Proof. split; [reflexivity|]. split; [discriminate|reflexivity]. Qed.

(** * Connection statistics *)

(** C10: whenever [getConnectionCount] answers, its [authenticated] and
    [users] fields are equal, both being the number of distinct user ids
    that are keys of [userConnections]; authenticating one more connection
    of a user who is already a key leaves [authenticated] unchanged, so a
    user with several authenticated connections counts once. *)
Theorem authenticated_counts_users st c :
  getConnectionCount st = Ok c ->
  authenticated c = users c /\
  users c = size (dom (userConnections st)) /\
  (forall sid user, exists c',
     getConnectionCount (authenticateSocket_resume sid (Ok (Some user)) st) = Ok c' /\
     authenticated c' = users c' /\
     authenticated c' =
       match userConnections st !! User.id user with
       | Some _ => authenticated c
       | None => S (authenticated c)
       end).
Proof.
  unfold getConnectionCount. destruct (initialized st) eqn:Hinit; [|discriminate].
  intros [= <-]. simpl.
  assert (Hkeys : forall m : gmap string (gset string),
             length ((map_to_list m).*1) = size m).
  { intros m. rewrite length_fmap. apply length_map_to_list. }
  split; [symmetry; apply Hkeys|].
  split; [rewrite Hkeys, size_dom; reflexivity|].
  intros sid user. unfold authenticateSocket_resume, socket_emit. simpl.
  match goal with
  | |- context [socket_join ?a ?b ?c] =>
      destruct (socket_join_frame a b c) as (-> & _ & -> & _)
  end.
  simpl. rewrite Hinit. eexists. split; [reflexivity|]. simpl.
  split; [symmetry; apply Hkeys|].
  rewrite map_size_insert. destruct (userConnections st !! User.id user); reflexivity.
Qed.

Lemma authenticated_counts_users_witness :
  getConnectionCount two_devices = Ok {| total := 2; authenticated := 1; users := 1 |} /\
  size (registered "alice" (userConnections two_devices)) = 2 /\
  1 = size (dom (userConnections two_devices)).
Proof.
  assert (Hc : getConnectionCount two_devices =
               Ok {| total := 2; authenticated := 1; users := 1 |})
    by (vm_compute; reflexivity).
  destruct (authenticated_counts_users two_devices _ Hc) as (_ & Hu & _).
  split; [exact Hc|]. split; [vm_compute; reflexivity|exact Hu].
Defined.


(** * Internal requests *)

Section Requests.

Variable is_uuid : string -> bool.
Variable INTERNAL_SERVICE_KEY : option string.

Lemma present_spec (v : option string) :
  Http.present v = true <-> exists s, v = Some s /\ s <> "".
Proof.
  destruct v as [s|]; simpl.
  - rewrite negb_true_iff, String.eqb_neq. split.
    + intros H. exists s. auto.
    + intros (s' & [= <-] & H). exact H.
  - split; [discriminate|]. intros (s & H & _). discriminate.
Qed.

Lemma serviceAuth_next req :
  Http.serviceAuth INTERNAL_SERVICE_KEY req = None <->
  Http.authorized INTERNAL_SERVICE_KEY (Http.headers req).
Proof.
  unfold Http.serviceAuth, Http.authorized.
  destruct (Http.present (Http.headers req !! "x-service-key")) eqn:Hk; simpl.
  2:{ split; [discriminate|]. intros (key & _ & Hne & Hkey & _).
      rewrite Hkey in Hk. simpl in Hk. apply negb_false_iff, String.eqb_eq in Hk.
      contradiction. }
  apply present_spec in Hk as (k & Hk & Hkne).
  destruct (Http.present (Http.headers req !! "x-internal-service")) eqn:Hs; simpl.
  2:{ split; [discriminate|]. intros (key & _ & _ & _ & Hserv).
      apply present_spec in Hserv. congruence. }
  apply present_spec in Hs. rewrite Hk.
  case_bool_decide as Heq; simpl.
  - split; [|reflexivity]. intros _. exists k. auto.
  - split; [discriminate|]. intros (key & Henv & _ & [= <-] & _). congruence.
Qed.

(** X1: [serviceAuth] lets a request through exactly when both headers are
    present and not empty and [x-service-key] equals the configured key;
    every other request is answered 401. With the key unset, or set to the
    empty string, no request gets through. *)
Theorem serviceAuth_passes_iff req :
  (Http.serviceAuth INTERNAL_SERVICE_KEY req = None <->
   Http.authorized INTERNAL_SERVICE_KEY (Http.headers req)) /\
  (Http.serviceAuth INTERNAL_SERVICE_KEY req <> None ->
   exists message, Http.serviceAuth INTERNAL_SERVICE_KEY req = Some message /\
     (message = "Internal service authentication required" \/
      message = "Invalid service key")) /\
  (INTERNAL_SERVICE_KEY = None \/ INTERNAL_SERVICE_KEY = Some "" ->
   Http.serviceAuth INTERNAL_SERVICE_KEY req <> None).
Proof.
  split; [apply serviceAuth_next|]. split.
  - unfold Http.serviceAuth.
    destruct (_ || _); [eauto|]. destruct (negb _); [eauto|].
    intros H. contradiction.
  - intros Henv Hnext. apply serviceAuth_next in Hnext as (key & Hkey & Hne & _).
    destruct Henv as [Henv|Henv]; rewrite Henv in Hkey; [discriminate|].
    injection Hkey as <-. contradiction.
Qed.

(** X2: a request that is not authorized is answered 401 by every route of
    the router, whatever its path and body, and the socket service is left
    as it was: nothing is delivered and no counter moves. *)
Theorem unauthorized_request_is_dropped handler req now st :
  ~ Http.authorized INTERNAL_SERVICE_KEY (Http.headers req) ->
  exists message,
    Http.post is_uuid INTERNAL_SERVICE_KEY handler req now st =
      (Http.Unauthorized message, st) /\
    Http.get_status INTERNAL_SERVICE_KEY req st = Http.StatusUnauthorized message.
Proof.
  intros Hno. unfold Http.post, Http.get_status.
  destruct (Http.serviceAuth INTERNAL_SERVICE_KEY req) as [message|] eqn:Hauth.
  - exists message. split; reflexivity.
  - apply serviceAuth_next in Hauth. contradiction.
Qed.

Lemma obj_lookup_in k (fields : Obj) v :
  obj_lookup k fields = Some v -> (k, v) ∈ fields.
Proof.
  induction fields as [|[k' v'] fields IH]; simpl; [discriminate|].
  destruct (String.eqb k' k) eqn:E.
  - apply String.eqb_eq in E. subst k'. intros [= ->]. apply list_elem_of_here.
  - intros H. apply list_elem_of_further, IH, H.
Qed.

(** What a body that passes a schema holds under a required key. *)
Lemma validate_required (schema : Http.Schema) fields k rule :
  Http.validate is_uuid schema (JObj fields) = true ->
  (k, (rule, true)) ∈ schema ->
  exists s, obj_lookup k fields = Some (JStr s) /\ s <> "" /\
            Http.rule_ok is_uuid rule s = true.
Proof.
  simpl. intros Hv Hin. apply andb_true_iff in Hv as [_ Hkeys].
  rewrite forallb_forall in Hkeys.
  apply list_elem_of_In, Hkeys in Hin. simpl in Hin.
  unfold Http.key_ok in Hin. simpl in Hin.
  destruct (obj_lookup k fields) as [[| | | |s| |]|]; try discriminate.
  apply andb_true_iff in Hin as [Hne Hrule].
  exists s. split; [reflexivity|]. split; [|exact Hrule].
  apply negb_true_iff, String.eqb_neq in Hne. exact Hne.
Qed.

(** Under an optional key it holds nothing or a string that is not empty. *)
Lemma validate_optional (schema : Http.Schema) fields k rule :
  Http.validate is_uuid schema (JObj fields) = true ->
  (k, (rule, false)) ∈ schema ->
  obj_lookup k fields = None \/ obj_lookup k fields = Some JUndefined \/
  exists s, obj_lookup k fields = Some (JStr s) /\ s <> "".
Proof.
  simpl. intros Hv Hin. apply andb_true_iff in Hv as [_ Hkeys].
  rewrite forallb_forall in Hkeys.
  apply list_elem_of_In, Hkeys in Hin. simpl in Hin.
  unfold Http.key_ok in Hin. simpl in Hin.
  destruct (obj_lookup k fields) as [[| | | |s| |]|]; try discriminate; auto.
  apply andb_true_iff in Hin as [Hne _]. right. right. exists s.
  split; [reflexivity|]. apply negb_true_iff, String.eqb_neq in Hne. exact Hne.
Qed.

(** It holds nothing under a key the schema does not name. *)
Lemma validate_unknown (schema : Http.Schema) fields k :
  Http.validate is_uuid schema (JObj fields) = true ->
  k ∉ schema.*1 ->
  obj_lookup k fields = None.
Proof.
  simpl. intros Hv Hnot. apply andb_true_iff in Hv as [Hknown _].
  rewrite forallb_forall in Hknown.
  destruct (obj_lookup k fields) as [v|] eqn:Hk; [|reflexivity].
  exfalso. apply Hnot.
  apply obj_lookup_in, list_elem_of_In, Hknown in Hk.
  apply existsb_exists in Hk as ([k' r] & Hin & Heq). simpl in Heq.
  apply String.eqb_eq in Heq. subst k'.
  apply list_elem_of_fmap. exists (k, r). split; [reflexivity|].
  apply list_elem_of_In, Hin.
Qed.

Lemma validateNotification_checked req schema name :
  Http.path req = name ->
  (Http.validateNotification is_uuid req =
     if Http.validate is_uuid schema (Http.body req) then Some req else None) ->
  Http.validateNotification is_uuid req <> None ->
  Http.validate is_uuid schema (Http.body req) = true.
Proof.
  intros _ Heq Hnext. rewrite Heq in Hnext.
  destruct (Http.validate _ _ _); [reflexivity|contradiction].
Qed.

Ltac required_key Hv k rule :=
  let s := fresh "s" in
  let Hs := fresh "Hs" in
  let Hne := fresh "Hne" in
  let Hr := fresh "Hr" in
  destruct (validate_required _ _ k rule Hv) as (s & Hs & Hne & Hr);
  [ apply list_elem_of_In; simpl; auto 10 | simpl in Hr ].

(** X3: what reaches the dispatcher from a validated request. The payload
    of a validated [/analysis-complete] request is [{status: 'completed',
    result_id, assessment_name}] with a result id that passes the uuid test
    and a non-empty name; that of a validated [/analysis-started] request
    is [{jobId, status, assessment_name, message}] with a uuid job id, the
    status [processing] or [started] as the caller sent it, a non-empty
    name, and the caller's message or, without one,
    ['Analysis processing started...']. *)
Theorem validated_request_payloads req fields :
  Http.body req = JObj fields ->
  Http.validateNotification is_uuid req <> None ->
  (Http.path req = "/analysis-complete" ->
   exists r a,
     is_uuid r = true /\ a <> "" /\
     Webhook.completePayload (Http.body req) =
       [ ("status", JStr "completed"); ("result_id", JStr r);
         ("assessment_name", JStr a) ]) /\
  (Http.path req = "/analysis-started" ->
   exists j s a m,
     is_uuid j = true /\ (s = "processing" \/ s = "started") /\ a <> "" /\ m <> "" /\
     Webhook.startedPayload (Http.body req) =
       [ ("jobId", JStr j); ("status", JStr s); ("assessment_name", JStr a);
         ("message", JStr m) ] /\
     (obj_lookup "message" fields = None -> m = "Analysis processing started...")).
Proof.
  intros Hbody Hnext. split; intros Hpath.
  - assert (Hv : Http.validate is_uuid Http.analysisCompleteSchema (JObj fields) = true).
    { rewrite <- Hbody. apply (validateNotification_checked req _ _ Hpath); [|exact Hnext].
      unfold Http.validateNotification. rewrite Hpath. reflexivity. }
    required_key Hv "result_id" Http.Uuid. required_key Hv "assessment_name" Http.AnyString.
    exists s, s0. split; [exact Hr|]. split; [exact Hne0|].
    rewrite Hbody. unfold Webhook.completePayload. simpl. rewrite Hs, Hs0. reflexivity.
  - assert (Hv : Http.validate is_uuid Http.analysisStartedSchema (JObj fields) = true).
    { rewrite <- Hbody. apply (validateNotification_checked req _ _ Hpath); [|exact Hnext].
      unfold Http.validateNotification. rewrite Hpath. reflexivity. }
    required_key Hv "jobId" Http.Uuid.
    required_key Hv "status" (Http.Valid ["processing"; "started"]).
    required_key Hv "assessment_name" Http.AnyString.
    assert (Hstatus : s0 = "processing" \/ s0 = "started").
    { apply orb_true_iff in Hr0 as [H|H]; [left; apply String.eqb_eq, H|].
      apply orb_true_iff in H as [H|H]; [right; apply String.eqb_eq, H|discriminate]. }
    rewrite Hbody. unfold Webhook.startedPayload. simpl. rewrite Hs, Hs0, Hs1. simpl.
    destruct (validate_optional _ _ "message" Http.AnyString Hv)
      as [Hm|[Hm|(m & Hm & Hmne)]].
    + apply list_elem_of_In. simpl. auto 10.
    + rewrite Hm. simpl. exists s, s0, s1, "Analysis processing started...".
      repeat (split; [assumption || discriminate || reflexivity|]). reflexivity.
    + rewrite Hm. simpl. exists s, s0, s1, "Analysis processing started...".
      repeat (split; [assumption || discriminate || reflexivity|]). discriminate.
    + rewrite Hm. simpl. unfold js_or. simpl.
      apply String.eqb_neq in Hmne as Hmb. rewrite Hmb. simpl.
      exists s, s0, s1, m.
      repeat (split; [assumption || reflexivity|]). discriminate.
Qed.

(** X4: a validated [/analysis-failed] or [/analysis-unknown] request has
    no [result_id] - the schemas do not name the key and Joi refuses keys it
    does not know - so the payload it sends always has [result_id: null],
    next to the status [failed], a non-empty assessment name and a non-empty
    error message. *)
Theorem validated_failure_has_no_result_id req fields :
  Http.body req = JObj fields ->
  Http.validateNotification is_uuid req <> None ->
  Http.path req = "/analysis-failed" \/ Http.path req = "/analysis-unknown" ->
  obj_lookup "result_id" fields = None /\
  exists a e,
    a <> "" /\ e <> "" /\
    Webhook.failedPayload (Http.body req) =
      [ ("status", JStr "failed"); ("result_id", JNull);
        ("assessment_name", JStr a); ("error_message", JStr e) ] /\
    Webhook.unknownPayload (Http.body req) = Webhook.failedPayload (Http.body req).
Proof.
  intros Hbody Hnext Hpath.
  assert (Hfacts : obj_lookup "result_id" fields = None /\
            (exists a, obj_lookup "assessment_name" fields = Some (JStr a) /\ a <> "") /\
            (exists e, obj_lookup "error_message" fields = Some (JStr e) /\ e <> "")).
  { destruct Hpath as [Hpath|Hpath].
    - assert (Hv : Http.validate is_uuid Http.analysisFailedSchema (JObj fields) = true).
      { rewrite <- Hbody. apply (validateNotification_checked req _ _ Hpath); [|exact Hnext].
        unfold Http.validateNotification. rewrite Hpath. reflexivity. }
      required_key Hv "assessment_name" Http.AnyString.
      required_key Hv "error_message" Http.AnyString.
      split; [|split; eauto]. apply (validate_unknown _ _ _ Hv).
      rewrite list_elem_of_In. simpl. intros H.
      repeat (destruct H as [H|H]; [discriminate|]). exact H.
    - assert (Hv : Http.validate is_uuid Http.analysisUnknownSchema (JObj fields) = true).
      { rewrite <- Hbody. apply (validateNotification_checked req _ _ Hpath); [|exact Hnext].
        unfold Http.validateNotification. rewrite Hpath. reflexivity. }
      required_key Hv "assessment_name" Http.AnyString.
      required_key Hv "error_message" Http.AnyString.
      split; [|split; eauto]. apply (validate_unknown _ _ _ Hv).
      rewrite list_elem_of_In. simpl. intros H.
      repeat (destruct H as [H|H]; [discriminate|]). exact H. }
  destruct Hfacts as (Hres & (a & Ha & Hane) & (e & He & Hene)).
  split; [exact Hres|]. exists a, e. split; [exact Hane|]. split; [exact Hene|].
  split; [|reflexivity].
  rewrite Hbody. unfold Webhook.failedPayload. simpl. rewrite Hres, Ha, He. reflexivity.
Qed.

(** X5: an authorized request on one of the four notification paths whose
    body is an object that passes [validateNotification] names its user by
    a string that passes the uuid test, and it is answered with 200, never
    with 500, once the socket service has its server: the [sent] flag of the
    answer and the state of the service are those of the call of
    [sendToUser] for that user. *)
Theorem validated_request_is_answered event payload req fields now st :
  Http.authorized INTERNAL_SERVICE_KEY (Http.headers req) ->
  Http.body req = JObj fields ->
  Http.path req ∈ [ "/analysis-started"; "/analysis-complete";
                    "/analysis-failed"; "/analysis-unknown" ] ->
  Http.validateNotification is_uuid req <> None ->
  reserved_event event = false ->
  initialized st = true ->
  exists u sent st',
    obj_lookup "userId" fields = Some (JStr u) /\ is_uuid u = true /\
    sendToUser (JStr u) event (payload (Http.body req)) now st = Ok (sent, st') /\
    Http.post is_uuid INTERNAL_SERVICE_KEY (Routes.notify event payload) req now st =
      (Http.Routed (Routes.NotificationSent sent), st').
Proof.
  intros Hauth Hbody Hpath Hnext Hres Hinit.
  assert (Hreq : Http.validateNotification is_uuid req = Some req).
  { revert Hnext. unfold Http.validateNotification.
    repeat (destruct (String.eqb (Http.path req) _);
            [destruct (Http.validate _ _ _); [reflexivity|contradiction]|]).
    reflexivity. }
  assert (Huser : exists u, obj_lookup "userId" fields = Some (JStr u) /\
                            is_uuid u = true).
  { assert (Hv : exists schema,
              Http.validate is_uuid schema (JObj fields) = true /\
              ("userId", (Http.Uuid, true)) ∈ schema).
    { rewrite <- Hbody. revert Hnext. unfold Http.validateNotification.
      apply list_elem_of_In in Hpath. simpl in Hpath.
      destruct Hpath as [<-|[<-|[<-|[<-|[]]]]]; simpl;
        (destruct (Http.validate _ _ _) eqn:Hv; [|contradiction]);
        intros _; eexists; (split; [exact Hv|]);
        apply list_elem_of_In; simpl; auto. }
    destruct Hv as (schema & Hv & Hin).
    destruct (validate_required schema fields "userId" Http.Uuid Hv Hin)
      as (u & Hu & _ & Hr).
    exists u. split; [exact Hu|exact Hr]. }
  destruct Huser as (u & Hu & Huuid).
  assert (Hprop : prop "userId" (Http.body req) = JStr u).
  { rewrite Hbody. simpl. rewrite Hu. reflexivity. }
  pose proof (sendToUser_settles (JStr u) event (payload (Http.body req)) now st Hres)
    as Hs.
  simpl in Hs. rewrite Hinit in Hs. destruct Hs as (sent & st' & Hs).
  exists u, sent, st'. split; [exact Hu|]. split; [exact Huuid|]. split; [exact Hs|].
  unfold Http.post. apply serviceAuth_next in Hauth. rewrite Hauth, Hreq.
  unfold Routes.notify. rewrite Hprop, Hs, Hbody. reflexivity.
Qed.

(** X6: [validateNotification] checks a body only when the path of the
    request is, letter for letter, one of the four route names. A request
    that reaches it under any other spelling goes on to the handler with its
    body unchecked, whatever the body is. *)
Theorem other_spelling_is_not_validated handler req now st :
  Http.authorized INTERNAL_SERVICE_KEY (Http.headers req) ->
  Http.path req <> "/analysis-started" ->
  Http.path req <> "/analysis-complete" ->
  Http.path req <> "/analysis-failed" ->
  Http.path req <> "/analysis-unknown" ->
  Http.validateNotification is_uuid req = Some req /\
  Http.post is_uuid INTERNAL_SERVICE_KEY handler req now st =
    (Http.Routed (handler (Http.body req) now st).1, (handler (Http.body req) now st).2).
Proof.
  intros Hauth H1 H2 H3 H4.
  assert (Hreq : Http.validateNotification is_uuid req = Some req).
  { unfold Http.validateNotification.
    apply String.eqb_neq in H1, H2, H3, H4. rewrite H1, H2, H3, H4. reflexivity. }
  split; [exact Hreq|]. unfold Http.post.
  apply serviceAuth_next in Hauth. rewrite Hauth, Hreq. reflexivity.
Qed.

End Requests.

Lemma worker_is_authorized :
  Http.authorized (Some "s3cret") worker_headers.
Proof.
  exists "s3cret". split; [reflexivity|]. split; [discriminate|].
  split; [reflexivity|]. exists "analysis-worker". split; [reflexivity|discriminate].
Qed.

Lemma stranger_is_not_authorized :
  ~ Http.authorized (Some "s3cret") stranger_headers.
Proof.
  intros (key & [= <-] & _ & Hkey & _). vm_compute in Hkey. discriminate.
Qed.

Lemma unauthorized_request_is_dropped_witness :
  exists message,
    Http.post sample_is_uuid (Some "s3cret") Routes.analysis_complete
      (Http.mkRequest "/analysis-complete" stranger_headers sample_complete_body)
      "t0" two_devices = (Http.Unauthorized message, two_devices) /\
    Http.get_status (Some "s3cret")
      (Http.mkRequest "/analysis-complete" stranger_headers sample_complete_body)
      two_devices = Http.StatusUnauthorized message.
Proof.
  apply (unauthorized_request_is_dropped sample_is_uuid (Some "s3cret")
           Routes.analysis_complete
           (Http.mkRequest "/analysis-complete" stranger_headers sample_complete_body)
           "t0" two_devices).
  exact stranger_is_not_authorized.
Defined.

Lemma validated_request_payloads_witness :
  exists r a,
    sample_is_uuid r = true /\ a <> "" /\
    Webhook.completePayload (Http.body sample_complete_request) =
      [ ("status", JStr "completed"); ("result_id", JStr r);
        ("assessment_name", JStr a) ].
Proof.
  destruct (validated_request_payloads sample_is_uuid sample_complete_request
              [ ("userId", JStr sample_user); ("jobId", JStr sample_job);
                ("result_id", JStr sample_result);
                ("status", JStr "completed"); ("assessment_name", JStr "RIASEC") ])
    as [H _].
  - reflexivity.
  - vm_compute. discriminate.
  - apply H. reflexivity.
Defined.

Lemma validated_failure_has_no_result_id_witness :
  exists a e,
    a <> "" /\ e <> "" /\
    Webhook.failedPayload (Http.body sample_failed_request) =
      [ ("status", JStr "failed"); ("result_id", JNull);
        ("assessment_name", JStr a); ("error_message", JStr e) ] /\
    Webhook.unknownPayload (Http.body sample_failed_request) =
      Webhook.failedPayload (Http.body sample_failed_request).
Proof.
  destruct (validated_failure_has_no_result_id sample_is_uuid sample_failed_request
              [ ("userId", JStr sample_user); ("jobId", JStr sample_job);
                ("status", JStr "failed"); ("assessment_name", JStr "RIASEC");
                ("error_message", JStr "Model timeout") ])
    as [_ H].
  - reflexivity.
  - vm_compute. discriminate.
  - left. reflexivity.
  - exact H.
Defined.

Lemma validated_request_is_answered_witness :
  exists u sent st',
    obj_lookup "userId"
      [ ("userId", JStr sample_user); ("jobId", JStr sample_job);
        ("result_id", JStr sample_result);
        ("status", JStr "completed"); ("assessment_name", JStr "RIASEC") ] =
      Some (JStr u) /\
    sample_is_uuid u = true /\
    sendToUser (JStr u) "analysis-complete"
      (Webhook.completePayload (Http.body sample_complete_request)) "t0" two_devices =
      Ok (sent, st') /\
    Http.post sample_is_uuid (Some "s3cret") Routes.analysis_complete
      sample_complete_request "t0" two_devices =
      (Http.Routed (Routes.NotificationSent sent), st').
Proof.
  apply (validated_request_is_answered sample_is_uuid (Some "s3cret")
           "analysis-complete" Webhook.completePayload sample_complete_request).
  - exact worker_is_authorized.
  - reflexivity.
  - apply list_elem_of_In. simpl. auto.
  - vm_compute. discriminate.
  - reflexivity.
  - reflexivity.
Defined.

(** A request for [/analysis-complete/] with a number as user id and
    nothing else reaches the handler. *)
Lemma other_spelling_is_not_validated_witness :
  Http.validateNotification sample_is_uuid slash_request = Some slash_request /\
  Http.post sample_is_uuid (Some "s3cret") Routes.analysis_complete slash_request
    "t0" two_devices =
    (Http.Routed
       (Routes.analysis_complete (Http.body slash_request) "t0" two_devices).1,
     (Routes.analysis_complete (Http.body slash_request) "t0" two_devices).2).
Proof.
  apply (other_spelling_is_not_validated sample_is_uuid (Some "s3cret")
           Routes.analysis_complete slash_request "t0" two_devices).
  - exact worker_is_authorized.
  - discriminate.
  - discriminate.
  - discriminate.
  - discriminate.
Defined.

Lemma serviceAuth_passes_iff_witness :
  Http.serviceAuth (Some "s3cret") sample_complete_request = None /\
  Http.serviceAuth None sample_complete_request <> None.
Proof.
  split.
  - apply (proj1 (serviceAuth_passes_iff (Some "s3cret") sample_complete_request)).
    exact worker_is_authorized.
  - apply (proj2 (proj2 (serviceAuth_passes_iff None sample_complete_request))).
    left. reflexivity.
Defined.


(** * The credential verifier *)

Section Verifier.

Lemma verifyJwtToken_raised error :
  verifyJwtToken (Raised error) =
  if unclassified error then Throw (err_name error) else Ok None.
Proof.
  unfold verifyJwtToken, unclassified.
  destruct (_ || _); [reflexivity|]. simpl.
  destruct (bool_decide _); [reflexivity|]. simpl.
  destruct (err_request error); reflexivity.
Qed.

Lemma verifyFirebaseToken_ok firebase :
  verifyFirebaseToken firebase =
  Ok (match answered_user firebase with
      | Some (i, e) => Some (User.mk i e "firebase")
      | None => None
      end).
Proof. destruct firebase as [[[i e]|]|]; reflexivity. Qed.

Lemma verifyJwtToken_settles jwt :
  jwt_settles jwt ->
  verifyJwtToken jwt =
  Ok (match answered_user jwt with
      | Some (i, e) => Some (User.mk i e "jwt")
      | None => None
      end).
Proof.
  destruct jwt as [[[i e]|]|error]; try reflexivity.
  intros H. rewrite verifyJwtToken_raised. simpl in H. rewrite H. reflexivity.
Qed.

(** X7: [verifyToken] throws in one situation only: the JWT backend was
    asked and ended with an error that is neither a [JsonWebTokenError] nor
    a [TokenExpiredError], has no 401 response and no unanswered request;
    the error thrown is that one. The JWT backend is asked first for a
    token detected as JWT, and after Firebase found no user otherwise.
    Nothing the Firebase backend does makes [verifyToken] throw. *)
Theorem verifyToken_throws_iff tokenType jwt firebase e :
  verifyToken tokenType jwt firebase = Throw e <->
  (exists error, jwt = Raised error /\ unclassified error = true /\ e = err_name error) /\
  (tokenType = TokFirebase -> answered_user firebase = None).
Proof.
  assert (Hjwt : verifyJwtToken jwt =
            match jwt with
            | Answered (Some (i, m)) => Ok (Some (User.mk i m "jwt"))
            | Answered None => Ok None
            | Raised error =>
                if unclassified error then Throw (err_name error) else Ok None
            end).
  { destruct jwt as [[[i m]|]|error]; try reflexivity. apply verifyJwtToken_raised. }
  unfold verifyToken. rewrite Hjwt, verifyFirebaseToken_ok. clear Hjwt.
  destruct tokenType, jwt as [[[i m]|]|error],
    (answered_user firebase) as [[i' m']|];
    try destruct (unclassified error) eqn:Hu; simpl;
    (split;
     [ intros H;
       first [ discriminate
             | injection H as <-; split; [eauto|intros; congruence] ]
     | intros [(error' & Hr & Hu' & ->) Hf];
       first [ discriminate
             | specialize (Hf eq_refl); discriminate
             | injection Hr as <-; congruence ] ]).
Qed.

(** X8: when the JWT backend does not end with such an error, the detected
    token type decides the order of the two backends and nothing else:
    [verifyToken] returns a user exactly when one of the backends answered
    with one, whichever type was detected; the user returned is the answer
    of the backend of the detected type when that one has a user, of the
    other backend otherwise, and its [tokenType] names the backend that
    answered, not the type detected. *)
Theorem verifyToken_tries_both tokenType jwt firebase :
  jwt_settles jwt ->
  let as_jwt := match answered_user jwt with
                | Some (i, e) => Some (User.mk i e "jwt")
                | None => None
                end in
  let as_firebase := match answered_user firebase with
                     | Some (i, e) => Some (User.mk i e "firebase")
                     | None => None
                     end in
  verifyToken tokenType jwt firebase =
    Ok (match tokenType with
        | TokJwt => match as_jwt with Some u => Some u | None => as_firebase end
        | TokFirebase => match as_firebase with Some u => Some u | None => as_jwt end
        end) /\
  (verifyToken tokenType jwt firebase = Ok None <->
   answered_user jwt = None /\ answered_user firebase = None) /\
  ((exists u, verifyToken TokJwt jwt firebase = Ok (Some u)) <->
   (exists u, verifyToken TokFirebase jwt firebase = Ok (Some u))).
Proof.
  intros Hj as_jwt as_firebase.
  assert (Heq : forall tt, verifyToken tt jwt firebase =
    Ok (match tt with
        | TokJwt => match as_jwt with Some u => Some u | None => as_firebase end
        | TokFirebase => match as_firebase with Some u => Some u | None => as_jwt end
        end)).
  { intros tt. unfold verifyToken.
    rewrite (verifyJwtToken_settles jwt Hj), verifyFirebaseToken_ok. simpl.
    fold as_jwt as_firebase. destruct tt, as_jwt, as_firebase; reflexivity. }
  split; [apply Heq|]. split.
  - rewrite Heq. subst as_jwt as_firebase.
    destruct tokenType, (answered_user jwt) as [[? ?]|],
      (answered_user firebase) as [[? ?]|]; split;
      try discriminate; try (intros [? ?]; discriminate); auto.
  - rewrite !Heq. subst as_jwt as_firebase.
    destruct (answered_user jwt) as [[? ?]|], (answered_user firebase) as [[? ?]|];
      split; intros [u H]; try discriminate; eauto.
Qed.

(** X9: [detectTokenType] answers ['jwt'] only for a token that
    [jwt.decode] decodes without an exception to something other than
    [null], and that either carries an [id] or [userId] claim (next to a
    header) or is at most 500 characters long; a token with a header whose
    issuer is a string that mentions [securetoken.google.com] is never
    taken for a JWT of the service. Everything else is ['firebase']. *)
Theorem detectTokenType_jwt_only_if decoded tokenLength :
  detectTokenType decoded tokenLength = TokJwt ->
  exists value,
    decoded = Ok value /\ truthy value = true /\
    (tokenLength <= 500 \/
     (truthy (prop "header" value) = true /\
      truthy (prop "payload" value) = true /\
      truthy (js_or (prop "id" (prop "payload" value))
                    (prop "userId" (prop "payload" value))) = true)) /\
    (truthy (prop "header" value) = true ->
     truthy (prop "payload" value) = true ->
     forall issuer, prop "iss" (prop "payload" value) = JStr issuer ->
       includes "securetoken.google.com" issuer = false).
Proof.
  unfold detectTokenType. destruct decoded as [value|err]; [|discriminate].
  destruct (truthy value) eqn:Hv; simpl; [|discriminate].
  intros H. exists value. split; [reflexivity|]. split; [exact Hv|].
  assert (Hlen : (if Nat.ltb 500 tokenLength then TokFirebase else TokJwt) = TokJwt ->
                 tokenLength <= 500).
  { destruct (Nat.ltb 500 tokenLength) eqn:E; [discriminate|].
    intros _. apply Nat.ltb_ge in E. exact E. }
  destruct (truthy (prop "header" value)) eqn:Hh; simpl in H.
  2:{ split; [left; auto|discriminate]. }
  destruct (truthy (prop "payload" value)) eqn:Hp; simpl in H.
  2:{ split; [left; auto|discriminate]. }
  set (payload := prop "payload" value) in *.
  assert (Hclaims :
    (if truthy (js_or (prop "id" payload) (prop "userId" payload))
     then TokJwt else if Nat.ltb 500 tokenLength then TokFirebase else TokJwt) = TokJwt ->
    tokenLength <= 500 \/
    (true = true /\ true = true /\
     truthy (js_or (prop "id" payload) (prop "userId" payload)) = true)).
  { destruct (truthy (js_or _ _)); [auto|]. intros H'. left. auto. }
  destruct (truthy (prop "iss" payload)) eqn:Hiss.
  - destruct (prop "iss" payload) as [| | | |s|items|] eqn:Hi; try discriminate.
    + destruct (includes "securetoken.google.com" s) eqn:Hinc; [discriminate|].
      split; [auto|]. intros _ _ issuer [= <-]. exact Hinc.
    + destruct (existsb _ items); [discriminate|].
      split; [auto|]. intros _ _ issuer. discriminate.
  - split; [auto|]. intros _ _ issuer Heq. rewrite Heq in Hiss.
    simpl in Hiss. apply negb_false_iff, String.eqb_eq in Hiss. subst issuer.
    reflexivity.
Qed.

End Verifier.

(** A Firebase token the JWT backend refuses with an invalid signature:
    the Firebase backend is asked next and its user is returned. *)
Lemma verifyToken_tries_both_witness :
  verifyToken TokJwt (Raised (mkError "JsonWebTokenError" None false))
    (Answered (Some ("alice", "alice@example.org"))) =
  Ok (Some (User.mk "alice" "alice@example.org" "firebase")).
Proof.
  destruct (verifyToken_tries_both TokJwt
              (Raised (mkError "JsonWebTokenError" None false))
              (Answered (Some ("alice", "alice@example.org")))) as (H & _).
  - reflexivity.
  - exact H.
Defined.

(** A short token of the auth service, with an [id] claim. *)
Lemma detectTokenType_jwt_only_if_witness :
  exists value,
    Ok (JObj [ ("header", JObj [("alg", JStr "HS256")]);
               ("payload", JObj [("id", JStr "alice")]) ]) = Ok value /\
    truthy value = true.
Proof.
  destruct (detectTokenType_jwt_only_if
              (Ok (JObj [ ("header", JObj [("alg", JStr "HS256")]);
                          ("payload", JObj [("id", JStr "alice")]) ])) 180)
    as (value & Hv & Ht & _).
  - reflexivity.
  - exists value. split; [exact Hv|exact Ht].
Defined.

(** An error of the HTTP client's own making, neither a refusal nor a
    missing answer, comes out of [verifyToken] as it is. *)
Lemma verifyToken_throws_iff_witness :
  verifyToken TokJwt (Raised (mkError "TypeError" None false)) (Answered None) =
  Throw "TypeError".
Proof.
  apply (proj2 (verifyToken_throws_iff TokJwt
                  (Raised (mkError "TypeError" None false)) (Answered None)
                  "TypeError")).
  split.
  - eexists. split; [reflexivity|]. split; reflexivity.
  - discriminate.
Defined.


(** * The socket service, further *)

Section Service.

Lemma lookup_io_sockets st sid :
  io_sockets st !! sid =
  match sockets st !! sid with
  | Some s => if connected s then Some s else None
  | None => None
  end.
Proof.
  unfold io_sockets. rewrite map_lookup_filter.
  destruct (sockets st !! sid) as [s|]; simpl; [|reflexivity].
  destruct (connected s) eqn:Hc.
  - rewrite option_guard_True; [reflexivity|]. simpl. congruence.
  - rewrite option_guard_False; [reflexivity|]. simpl. congruence.
Qed.

(** X10: once the service has its server, [getConnectionDetails] lists
    exactly the pairs of a user id and a socket id such that the registry
    holds the socket id under the user id and the id names a connected
    socket, with that socket's e-mail address; an id left in the registry
    by a closed socket is skipped. In every reachable state each open
    connection with a bound user id is listed under that id. *)
Theorem getConnectionDetails_lists_open_connections st :
  initialized st = true ->
  exists details,
    getConnectionDetails st = Ok details /\
    (forall d, d ∈ details <->
       exists socket,
         detail_socketId d ∈ registered (detail_userId d) (userConnections st) /\
         sockets st !! detail_socketId d = Some socket /\
         connected socket = true /\
         detail_userEmail d = userEmail socket /\
         detail_connected d = true) /\
    (reachable st ->
     forall sid s u,
       sockets st !! sid = Some s -> connected s = true -> has_userId s = Some u ->
       mkDetail u sid (userEmail s) true ∈ details).
Proof.
  intros Hinit. unfold getConnectionDetails. rewrite Hinit.
  eexists. split; [reflexivity|].
  assert (Hiff : forall d,
    d ∈ (userSockets ← map_to_list (userConnections st);
         socketId ← elements userSockets.2;
         match io_sockets st !! socketId with
         | Some socket =>
             [mkDetail userSockets.1 socketId (userEmail socket) (connected socket)]
         | None => []
         end) <->
    exists socket,
      detail_socketId d ∈ registered (detail_userId d) (userConnections st) /\
      sockets st !! detail_socketId d = Some socket /\
      connected socket = true /\
      detail_userEmail d = userEmail socket /\
      detail_connected d = true).
  { intros d. rewrite list_elem_of_bind. split.
    - intros ([u members] & Hd & Hum). apply elem_of_map_to_list in Hum.
      apply list_elem_of_bind in Hd as (sid & Hd & Hsid). simpl in *.
      apply elem_of_elements in Hsid. rewrite lookup_io_sockets in Hd.
      destruct (sockets st !! sid) as [s|] eqn:Hs; [|inversion Hd].
      destruct (connected s) eqn:Hc; [|inversion Hd].
      apply list_elem_of_singleton in Hd. subst d. simpl.
      exists s. unfold registered. rewrite Hum. simpl. auto.
    - intros (socket & Hin & Hs & Hc & Hmail & Hconn).
      unfold registered in Hin.
      destruct (userConnections st !! detail_userId d) as [members|] eqn:Hum;
        [|simpl in Hin; set_solver].
      exists (detail_userId d, members). split; [|apply elem_of_map_to_list, Hum].
      apply list_elem_of_bind. exists (detail_socketId d). simpl.
      split; [|apply elem_of_elements, Hin].
      rewrite lookup_io_sockets, Hs, Hc. apply list_elem_of_singleton.
      destruct d; simpl in *. congruence. }
  split; [exact Hiff|].
  intros Hreach sid s u Hs Hc Hu. apply Hiff. simpl. exists s.
  destruct (reachable_registry_covers st Hreach) as [HR _].
  split; [apply (HR sid s u Hs Hc Hu)|]. auto.
Qed.

Lemma getConnectionDetails_lists_open_connections_witness :
  getConnectionDetails switched_identity = Ok [] /\
  exists details,
    getConnectionDetails two_devices = Ok details /\
    mkDetail "alice" "s2" (Some "alice@example.org") true ∈ details.
Proof.
  split; [vm_compute; reflexivity|].
  destruct (getConnectionDetails_lists_open_connections two_devices eq_refl)
    as (details & Hd & _ & Hall).
  exists details. split; [exact Hd|].
  apply (Hall ltac:(eexists; reflexivity) "s2"
           (mkSocket (Some "alice") (Some "alice@example.org") (Some "jwt") true
              [ ("authenticated",
                  [ ("success", JBool true); ("userId", JStr "alice");
                    ("email", JStr "alice@example.org");
                    ("tokenType", JStr "jwt") ]) ])).
  - vm_compute. reflexivity.
  - reflexivity.
  - reflexivity.
Defined.

Lemma socket_disconnect_others sid st sid' :
  sid' <> sid -> sockets (socket_disconnect sid st) !! sid' = sockets st !! sid'.
Proof.
  intros Hne. destruct (sockets st !! sid) as [s|] eqn:Hs.
  2:{ unfold socket_disconnect. rewrite Hs. reflexivity. }
  destruct (connected s) eqn:Hc.
  2:{ rewrite (socket_disconnect_closed sid st s Hs Hc). reflexivity. }
  destruct (socket_disconnect_connected sid st s Hs Hc) as (Hsock & _).
  rewrite Hsock. apply lookup_insert_ne. congruence.
Qed.

Lemma socket_disconnect_closes sid st :
  is_connected sid (socket_disconnect sid st) = false.
Proof.
  unfold is_connected. destruct (sockets st !! sid) as [s|] eqn:Hs.
  2:{ unfold socket_disconnect. rewrite Hs, Hs. reflexivity. }
  destruct (connected s) eqn:Hc.
  2:{ rewrite (socket_disconnect_closed sid st s Hs Hc), Hs. exact Hc. }
  destruct (socket_disconnect_connected sid st s Hs Hc) as (Hsock & _).
  rewrite Hsock, lookup_insert_eq. reflexivity.
Qed.

(** The body of the loop of [disconnectUser]. *)
Lemma disconnect_listed_fold l st :
  let st' := foldl (fun acc socketId =>
                      match io_sockets acc !! socketId with
                      | Some _ => socket_disconnect socketId acc
                      | None => acc
                      end) st l in
  (forall sid, sid ∈ l -> is_connected sid st' = false) /\
  (forall sid, sid ∉ l -> sockets st' !! sid = sockets st !! sid) /\
  (forall sid, is_connected sid st = false -> is_connected sid st' = false).
Proof.
  revert st. induction l as [|x l IH]; intros st; simpl.
  - split; [set_solver|]. split; auto.
  - set (st1 := match io_sockets st !! x with
                | Some _ => socket_disconnect x st
                | None => st
                end).
    assert (Hx : is_connected x st1 = false).
    { subst st1. rewrite lookup_io_sockets. unfold is_connected.
      destruct (sockets st !! x) as [s|] eqn:Hs.
      - destruct (connected s) eqn:Hc; [apply socket_disconnect_closes|].
        rewrite Hs. exact Hc.
      - rewrite Hs. reflexivity. }
    assert (Hother : forall sid, sid <> x -> sockets st1 !! sid = sockets st !! sid).
    { intros sid Hne. subst st1. destruct (io_sockets st !! x); [|reflexivity].
      apply socket_disconnect_others, Hne. }
    destruct (IH st1) as (Hin & Hout & Hstay). split; [|split].
    + intros sid Hsid. apply elem_of_cons in Hsid as [->|Hsid]; [|apply Hin, Hsid].
      apply Hstay, Hx.
    + intros sid Hsid. apply not_elem_of_cons in Hsid as [Hne Hsid].
      rewrite (Hout sid Hsid). apply Hother, Hne.
    + intros sid Hclosed. apply Hstay.
      destruct (decide (sid = x)) as [->|Hne]; [exact Hx|].
      unfold is_connected. rewrite (Hother sid Hne). exact Hclosed.
Qed.

(** X11: [disconnectUser] answers [true] exactly when the user is a key of
    the registry; afterwards no socket id that the registry held for the
    user names a connected socket, and every other socket is exactly as it
    was. For a user who is no key nothing changes at all. *)
Theorem disconnectUser_closes_listed userId st :
  ((disconnectUser userId st).1 = true <-> userConnections st !! userId <> None) /\
  (forall sid, sid ∈ registered userId (userConnections st) ->
     is_connected sid (disconnectUser userId st).2 = false) /\
  (forall sid, sid ∉ registered userId (userConnections st) ->
     sockets (disconnectUser userId st).2 !! sid = sockets st !! sid) /\
  (userConnections st !! userId = None -> (disconnectUser userId st).2 = st).
Proof.
  unfold disconnectUser, registered.
  destruct (userConnections st !! userId) as [members|]; simpl.
  - destruct (disconnect_listed_fold (elements members) st) as (Hin & Hout & _).
    split; [split; [discriminate|reflexivity]|]. split; [|split; [|discriminate]].
    + intros sid Hsid. apply Hin, elem_of_elements, Hsid.
    + intros sid Hsid. apply Hout. rewrite elem_of_elements. exact Hsid.
  - split; [split; [discriminate|contradiction]|]. split; [set_solver|]. auto.
Qed.

(** X12: what [handleDisconnect] does to the registry. For a socket with a
    bound user id it takes the socket id out of that user's set and deletes
    the user's key when the set is left empty; no other socket id leaves
    any set; the sockets and the rooms are not touched. For a socket with
    no user id, or an id that names no socket, it changes nothing. Calling
    it a second time changes nothing. *)
Theorem handleDisconnect_removes_one_entry sid st :
  handleDisconnect sid (handleDisconnect sid st) = handleDisconnect sid st /\
  sockets (handleDisconnect sid st) = sockets st /\
  rooms (handleDisconnect sid st) = rooms st /\
  (forall u sid', sid' <> sid ->
     sid' ∈ registered u (userConnections st) ->
     sid' ∈ registered u (userConnections (handleDisconnect sid st))) /\
  (forall s u, sockets st !! sid = Some s -> has_userId s = Some u ->
     registered u (userConnections (handleDisconnect sid st)) =
       registered u (userConnections st) ∖ {[sid]} /\
     (registered u (userConnections st) ⊆ {[sid]} ->
      userConnections (handleDisconnect sid st) !! u = None)) /\
  (sockets st !! sid ≫= has_userId = None -> handleDisconnect sid st = st).
Proof.
  split; [apply handleDisconnect_idempotent|].
  split; [apply handleDisconnect_sockets|].
  split; [apply handleDisconnect_rooms|].
  pose proof (handleDisconnect_registry sid st) as Hreg.
  split; [|split].
  - intros u sid' Hne Hin. rewrite Hreg.
    destruct (sockets st !! sid ≫= has_userId); [|exact Hin].
    apply deregister_others; assumption.
  - intros s u Hs Hu. rewrite Hreg, Hs. simpl. rewrite Hu.
    split; [apply registered_deregister_same|apply deregister_last].
  - intros Hnone. apply handleDisconnect_fixpoint. rewrite Hreg, Hnone. reflexivity.
Qed.

Lemma handleDisconnect_removes_one_entry_witness :
  userConnections (handleDisconnect "s1" two_devices) !! "alice" = Some {[ "s2" ]} /\
  userConnections (handleDisconnect "s2" (handleDisconnect "s1" two_devices)) !! "alice"
    = None.
Proof.
  split; [vm_compute; reflexivity|].
  destruct (handleDisconnect_removes_one_entry "s2" (handleDisconnect "s1" two_devices))
    as (_ & _ & _ & _ & Hlast & _).
  destruct (Hlast (mkSocket (Some "alice") (Some "alice@example.org") (Some "jwt") true
              [ ("authenticated",
                  [ ("success", JBool true); ("userId", JStr "alice");
                    ("email", JStr "alice@example.org");
                    ("tokenType", JStr "jwt") ]) ]) "alice") as [_ Hgone].
  - vm_compute. reflexivity.
  - reflexivity.
  - apply Hgone.
    assert (Hleft : registered "alice"
                      (userConnections (handleDisconnect "s1" two_devices)) =
                    ({[ "s2" ]} : gset string)) by (vm_compute; reflexivity).
    rewrite Hleft. reflexivity.
Defined.

(** X13: in every state the service can reach, whatever the order of
    connections, authentications, verifier answers, closes, timers, sends
    and forced disconnects, each open connection with a bound user id is
    in the registry under that id, and no key of the registry has an empty
    set. *)
Theorem open_connections_are_registered events :
  let st := run booted events in
  (forall sid s u,
     sockets st !! sid = Some s -> connected s = true -> has_userId s = Some u ->
     exists members, userConnections st !! u = Some members /\ sid ∈ members) /\
  (forall u members, userConnections st !! u = Some members -> members <> ∅).
Proof.
  intros st. destruct (reachable_registry_covers st) as [HR HN].
  { exists events. reflexivity. }
  split; [|exact HN]. intros sid s u Hs Hc Hu.
  specialize (HR sid s u Hs Hc Hu). unfold registered in HR.
  destruct (userConnections st !! u) as [members|]; [eauto|].
  simpl in HR. set_solver.
Qed.

End Service.

Lemma disconnectUser_closes_listed_witness :
  (disconnectUser "alice" two_devices).1 = true /\
  is_connected "s1" (disconnectUser "alice" two_devices).2 = false /\
  is_connected "s2" (disconnectUser "alice" two_devices).2 = false /\
  (disconnectUser "bob" two_devices).2 = two_devices.
Proof.
  destruct (disconnectUser_closes_listed "alice" two_devices) as (H1 & H2 & _).
  destruct (disconnectUser_closes_listed "bob" two_devices) as (_ & _ & _ & H4).
  assert (Hreg : registered "alice" (userConnections two_devices) =
                 ({[ "s1"; "s2" ]} : gset string)) by (vm_compute; reflexivity).
  split; [apply H1; discriminate|].
  split; [apply H2; rewrite Hreg; set_solver|].
  split; [apply H2; rewrite Hreg; set_solver|].
  apply H4. reflexivity.
Defined.

Lemma open_connections_are_registered_witness :
  exists members,
    userConnections two_devices !! "alice" = Some members /\ "s2" ∈ members.
Proof.
  destruct (open_connections_are_registered
              [ EConnect "s1"; EAuthenticate "s1" (JStr "t1");
                EVerified "s1" (Ok (Some alice));
                EConnect "s2"; EAuthenticate "s2" (JStr "t2");
                EVerified "s2" (Ok (Some alice)) ]) as [H _].
  apply (H "s2"
           (mkSocket (Some "alice") (Some "alice@example.org") (Some "jwt") true
              [ ("authenticated",
                  [ ("success", JBool true); ("userId", JStr "alice");
                    ("email", JStr "alice@example.org");
                    ("tokenType", JStr "jwt") ]) ])).
  - vm_compute. reflexivity.
  - reflexivity.
  - reflexivity.
Defined.
